(** * Block-graph reducer of the Textract tool

    Shallow embedding of [tools/textract_tool.py]
    (class [TextractTool]) and the properties of its specification.

    Conventions of the embedding.
    - A Python [str] is a Rocq [string]; its characters are read as the
      code points 0..255.
    - A block is the dictionary of the analysis response.  The keys the
      code reads with [b['Id']], [b['BlockType']], [r['Type']] and
      [r['Ids']] are always present in a response and are plain record
      fields; the keys read with [.get] or tested with [in] are options.
    - A Python [int] is a [Z]; a bounding-box coordinate is the exact
      rational value of the (finite) float of the response.
    - [dict] used as an index ([block_map]) is a [gmap]; the [dict] whose
      iteration order is observed ([key_value_pairs]) is an association
      list kept in insertion order.
    - An exception is a value of [PyExc]; code that may raise returns
      [exc A]. *)

From Stdlib Require Import ZArith QArith Lqa Ascii String List Sorted Lia.
From stdpp Require Import base option list gmap strings fin_maps.

#[local] Set Warnings "-clear-no-such-hyp".

Local Open Scope Z_scope.
Local Open Scope string_scope.
Local Open Scope list_scope.

(** ** Python strings *)

Module PyStr.

(** The line feed, [chr(10)]; string literals have no escapes. *)
Definition nl : string := String (ascii_of_nat 10) EmptyString.

(** [sep.join(parts)] *)
Fixpoint join (sep : string) (parts : list string) : string :=
  match parts with
  | [] => ""
  | [p] => p
  | p :: rest => p +:+ sep +:+ join sep rest
  end.

(** [c.isspace()] for a code point below 256: TAB, LF, VT, FF, CR,
    FS, GS, RS, US, SPACE, NEL and NBSP. *)
Definition isspace (c : ascii) : bool :=
  let n := nat_of_ascii c in
  ((9 <=? n) && (n <=? 13))%nat || ((28 <=? n) && (n <=? 32))%nat
  || (n =? 133)%nat || (n =? 160)%nat.

(** [s.lstrip()] *)
Fixpoint lstrip (s : string) : string :=
  match s with
  | EmptyString => EmptyString
  | String c s' => if isspace c then lstrip s' else s
  end.

(** [s.rstrip()]: a trailing run of whitespace is removed. *)
Fixpoint rstrip (s : string) : string :=
  match s with
  | EmptyString => EmptyString
  | String c s' =>
      match rstrip s' with
      | EmptyString => if isspace c then EmptyString else String c EmptyString
      | r => String c r
      end
  end.

(** [s.strip()] *)
Definition strip (s : string) : string := rstrip (lstrip s).

(** Truth value of a string: [bool(s)]. *)
Definition truthy (s : string) : bool :=
  match s with EmptyString => false | _ => true end.

(** [s.startswith(p)] *)
Fixpoint startswith (p s : string) : bool :=
  match p, s with
  | EmptyString, _ => true
  | String a p', String b s' => if Ascii.eqb a b then startswith p' s' else false
  | String _ _, EmptyString => false
  end.

(** [sub in s] *)
Fixpoint contains (sub s : string) : bool :=
  startswith sub s ||
  match s with
  | EmptyString => false
  | String _ s' => contains sub s'
  end.

(** Every character is whitespace. *)
Fixpoint all_space (s : string) : bool :=
  match s with
  | EmptyString => true
  | String c s' => isspace c && all_space s'
  end.

(** The first character is whitespace. *)
Definition head_space (s : string) : bool :=
  match s with
  | EmptyString => false
  | String c _ => isspace c
  end.

(** The last character is whitespace. *)
Fixpoint last_space (s : string) : bool :=
  match s with
  | EmptyString => false
  | String c EmptyString => isspace c
  | String _ s' => last_space s'
  end.

End PyStr.

(** ** Exceptions *)

(** The exception classes the tool meets; all derive from [Exception].
    [ClientError] carries [e.response['Error']['Code']], or nothing for
    a response without the entry 'Error' (a response with 'Error' and
    without 'Code' is not represented); every exception carries
    [str(e)]. *)
Inductive PyExc : Type :=
  | NoCredentialsError (msg : string)
  | ClientError (code : option string) (msg : string)
  | KeyError (msg : string)
  | IndexError (msg : string)
  | OtherException (msg : string).

(** [str(e)] *)
Definition exc_str (e : PyExc) : string :=
  match e with
  | NoCredentialsError m | ClientError _ m | KeyError m
  | IndexError m | OtherException m => m
  end.

(** A computation that returns or raises. *)
Definition exc (A : Type) : Type := PyExc + A.

Definition ok {A} (a : A) : exc A := inr a.
Definition raise {A} (e : PyExc) : exc A := inl e.
Definition ebind {A B} (m : exc A) (k : A -> exc B) : exc B :=
  match m with
  | inl e => inl e
  | inr a => k a
  end.

Notation "'do' x <- m ; k" := (ebind m (fun x => k))
  (at level 10, x name, m at level 100, k at level 200).

(** ** Data model: the blocks of a response *)

Record Relationship : Type := mkRel {
  Type_ : string;            (* relationship['Type'] *)
  Ids : list string          (* relationship['Ids']  *)
}.

Record BoundingBoxT : Type := mkBox {
  Top : option Q;
  Left : option Q
}.

Record GeometryT : Type := mkGeom {
  BoundingBox : option BoundingBoxT
}.

Record Block : Type := mkBlock {
  Id : string;
  BlockType : string;
  Text : option string;
  EntityTypes : option (list string);
  RowIndex : option Z;
  ColumnIndex : option Z;
  Geometry : option GeometryT;
  Relationships : option (list Relationship)
}.

(** [d.get(k, default)] on an optional field. *)
Definition get {A} (field : option A) (default : A) : A :=
  match field with Some a => a | None => default end.

(** [{block['Id']: block for block in blocks}]: a later block with the
    same id replaces an earlier one. *)
Definition make_block_map (blocks : list Block) : gmap string Block :=
  foldl (fun m b => <[Id b := b]> m) ∅ blocks.

(** ** [_get_text_from_block] *)

(** The inner loop over [relationship['Ids']]. *)
Definition child_words_loop (block_map : gmap string Block)
    (text_parts : list string) (ids : list string) : list string :=
  foldl (fun parts child_id =>
           match block_map !! child_id with
           | Some child_block =>
               if decide (BlockType child_block = "WORD")
               then parts ++ [get (Text child_block) ""]
               else parts
           | None => parts
           end) text_parts ids.

(** The outer loop over [block['Relationships']]. *)
Definition child_rels_loop (block_map : gmap string Block)
    (text_parts : list string) (rels : list Relationship) : list string :=
  foldl (fun parts relationship =>
           if decide (Type_ relationship = "CHILD")
           then child_words_loop block_map parts (Ids relationship)
           else parts) text_parts rels.

(** The list [text_parts] when the function reaches its [return]. *)
Definition text_parts_of (block : Block) (block_map : gmap string Block)
    : list string :=
  let text_parts := [] in
  let text_parts :=
    match Text block with
    | Some t => text_parts ++ [t]
    | None => text_parts
    end in
  match Relationships block with
  | Some rels => child_rels_loop block_map text_parts rels
  | None => text_parts
  end.

Definition _get_text_from_block (block : Block) (block_map : gmap string Block)
    : string :=
  PyStr.strip (PyStr.join " " (text_parts_of block block_map)).

(** ** Python lists: sorting, indexing, [max] *)

Module PyList.

Section Sort.
Context {A K : Type} (lt : K -> K -> bool) (key : A -> K).

(** [x] goes before the first element whose key is not smaller than
    its own. *)
Fixpoint insert (x : A) (l : list A) : list A :=
  match l with
  | [] => [x]
  | y :: l' => if lt (key y) (key x) then y :: insert x l' else x :: y :: l'
  end.

(** [l.sort(key=key)].  The sort of Python is stable and compares
    keys with [<] only; what a stable sort returns is determined by
    the list and the order, and is computed here by insertion from
    the right. *)
Definition sort (l : list A) : list A := foldr insert [] l.

(** [x] may stand before [y]: the key of [y] is not smaller. *)
Definition key_le (x y : A) : Prop := lt (key y) (key x) = false.
End Sort.

(** [l[i]] resolves an index: [0 <= i < len] as it is, [-len <= i < 0]
    from the end, anything else is an [IndexError]. *)
Definition norm_index (len : nat) (i : Z) : option nat :=
  if ((0 <=? i) && (i <? Z.of_nat len))%Z then Some (Z.to_nat i)
  else if ((- Z.of_nat len <=? i) && (i <? 0))%Z
       then Some (Z.to_nat (Z.of_nat len + i))
       else None.

(** [max(l)]: a [ValueError] on an empty sequence. *)
Definition max (l : list Z) : exc Z :=
  match l with
  | [] => raise (OtherException "max() arg is an empty sequence")
  | x :: xs => ok (foldl Z.max x xs)
  end.

(** Tuples of two integers compare lexicographically. *)
Definition lt_ZZ (a b : Z * Z) : bool :=
  ((a.1 <? b.1) || ((a.1 =? b.1) && (a.2 <? b.2)))%Z.

Definition Qltb (x y : Q) : bool := negb (Qle_bool y x).

(** Tuples of two numbers (exact values of floats). *)
Definition lt_QQ (a b : Q * Q) : bool :=
  Qltb a.1 b.1 || (Qeq_bool a.1 b.1 && Qltb a.2 b.2).

End PyList.

(** ** [_extract_key_value_pairs] *)

(** A [dict] from [str] to [str] in insertion order. *)
Abbreviation dict := (list (string * string)).

(** [d[k] = v]: an existing key keeps its place and takes the new value;
    a new key goes to the end. *)
Fixpoint dict_set (k v : string) (d : dict) : dict :=
  match d with
  | [] => [(k, v)]
  | (k', v') :: d' =>
      if decide (k' = k) then (k', v) :: d' else (k', v') :: dict_set k v d'
  end.

(** [block.get('EntityTypes') == [role]] *)
Definition has_role (role : string) (b : Block) : bool :=
  bool_decide (EntityTypes b = Some [role]).

(** The loop over [relationship['Ids']]; its [break] leaves this loop
    only. *)
Fixpoint value_ids_loop (block_map : gmap string Block)
    (value_text : string) (ids : list string) : string :=
  match ids with
  | [] => value_text
  | value_id :: rest =>
      match block_map !! value_id with
      | Some value_block =>
          if has_role "VALUE" value_block
          then _get_text_from_block value_block block_map
          else value_ids_loop block_map value_text rest
      | None => value_ids_loop block_map value_text rest
      end
  end.

(** The loop over [kv_block['Relationships']]. *)
Definition value_rels_loop (block_map : gmap string Block)
    (value_text : string) (rels : list Relationship) : string :=
  foldl (fun value_text relationship =>
           if decide (Type_ relationship = "VALUE")
           then value_ids_loop block_map value_text (Ids relationship)
           else value_text) value_text rels.

(** [value_text] after the search for the associated value. *)
Definition find_value_text (block_map : gmap string Block) (kv_block : Block)
    : string :=
  let value_text := "" in
  match Relationships kv_block with
  | Some rels => value_rels_loop block_map value_text rels
  | None => value_text
  end.

(** One turn of the loop over [key_value_blocks]. *)
Definition kv_step (block_map : gmap string Block)
    (key_value_pairs : dict) (kv_block : Block) : dict :=
  if has_role "KEY" kv_block then
    let key_text := _get_text_from_block kv_block block_map in
    let value_text := find_value_text block_map kv_block in
    if PyStr.truthy key_text && PyStr.truthy value_text
    then dict_set key_text value_text key_value_pairs
    else key_value_pairs
  else key_value_pairs.

Definition _extract_key_value_pairs (blocks key_value_blocks : list Block)
    : dict :=
  let key_value_pairs := [] in
  let block_map := make_block_map blocks in
  foldl (kv_step block_map) key_value_pairs key_value_blocks.

(** ** [_extract_table_content] *)

(** The grid: [None] until a cell is stored. *)
Abbreviation grid := (list (list (option string))).

(** The loop over the ids of a [CHILD] relationship of the table. *)
Definition cell_ids_loop (block_map : gmap string Block)
    (table_cells : list Block) (ids : list string) : list Block :=
  foldl (fun cells cell_id =>
           match block_map !! cell_id with
           | Some cell_block =>
               if decide (BlockType cell_block = "CELL")
               then cells ++ [cell_block]
               else cells
           | None => cells
           end) table_cells ids.

(** [table_cells] before it is sorted. *)
Definition resolve_cells (block_map : gmap string Block) (table_block : Block)
    : list Block :=
  let table_cells := [] in
  match Relationships table_block with
  | Some rels =>
      foldl (fun cells relationship =>
               if decide (Type_ relationship = "CHILD")
               then cell_ids_loop block_map cells (Ids relationship)
               else cells) table_cells rels
  | None => table_cells
  end.

Definition row_key (cell : Block) : Z := get (RowIndex cell) 0.
Definition col_key (cell : Block) : Z := get (ColumnIndex cell) 0.

(** The sort key [(x.get('RowIndex', 0), x.get('ColumnIndex', 0))]. *)
Definition cell_key (cell : Block) : Z * Z := (row_key cell, col_key cell).

(** [[[None for _ in range(max_col + 1)] for _ in range(max_row + 1)]]:
    every row is a list of its own. *)
Definition new_grid (max_row max_col : Z) : grid :=
  replicate (Z.to_nat (max_row + 1)) (replicate (Z.to_nat (max_col + 1)) None).

(** [table_grid[row][col] = cell_text] *)
Definition grid_set (table_grid : grid) (row col : Z) (cell_text : string)
    : exc grid :=
  match PyList.norm_index (length table_grid) row with
  | None => raise (IndexError "list index out of range")
  | Some i =>
      match table_grid !! i with
      | None => raise (IndexError "list index out of range")
      | Some r =>
          match PyList.norm_index (length r) col with
          | None => raise (IndexError "list assignment index out of range")
          | Some j => ok (<[i := <[j := Some cell_text]> r]> table_grid)
          end
      end
  end.

(** One turn of the loop that stores the cells. *)
Definition place_cell (block_map : gmap string Block)
    (table_grid : grid) (cell : Block) : exc grid :=
  let row := row_key cell - 1 in
  let col := col_key cell - 1 in
  let cell_text := _get_text_from_block cell block_map in
  grid_set table_grid row col cell_text.

Fixpoint fill_grid (block_map : gmap string Block)
    (table_grid : grid) (table_cells : list Block) : exc grid :=
  match table_cells with
  | [] => ok table_grid
  | cell :: rest =>
      do g <- place_cell block_map table_grid cell;
      fill_grid block_map g rest
  end.

(** [cell or ""] *)
Definition cell_or_empty (cell : option string) : string :=
  match cell with
  | Some s => if PyStr.truthy s then s else ""
  | None => ""
  end.

Definition markdown_line (fields : list string) : string :=
  "| " +:+ PyStr.join " | " fields +:+ " |".

(** The loop [for i, row in enumerate(table_grid)]. *)
Fixpoint markdown_loop (i : nat) (rows : grid) (markdown_table : list string)
    : list string :=
  match rows with
  | [] => markdown_table
  | row :: rest =>
      let row := map cell_or_empty row in
      let markdown_table := markdown_table ++ [markdown_line row] in
      let markdown_table :=
        if (i =? 0)%nat
        then markdown_table ++ [markdown_line (replicate (length row) "---")]
        else markdown_table in
      markdown_loop (S i) rest markdown_table
  end.

(** The grid once every cell is stored: the function up to the comment
    [# Format as markdown table]. *)
Definition table_grid_of (block_map : gmap string Block)
    (table_cells : list Block) : exc grid :=
  let table_cells := PyList.sort PyList.lt_ZZ cell_key table_cells in
  do max_row <- PyList.max (map row_key table_cells);
  do max_col <- PyList.max (map col_key table_cells);
  fill_grid block_map (new_grid max_row max_col) table_cells.

(** The list [markdown_table] of a grid, empty when the grid has no row
    or an empty first row. *)
Definition markdown_table_of (table_grid : grid) : list string :=
  match table_grid with
  | [] | [] :: _ => []
  | _ => markdown_loop 0 table_grid []
  end.

Definition _extract_table_content (blocks : list Block) (table_block : Block)
    (cell_blocks : list Block) : exc string :=
  let block_map := make_block_map blocks in
  let table_cells := resolve_cells block_map table_block in
  match table_cells with
  | [] => ok ""
  | _ =>
      do table_grid <- table_grid_of block_map table_cells;
      match table_grid with
      | [] | [] :: _ => ok ""
      | _ => ok (PyStr.join PyStr.nl (markdown_loop 0 table_grid []))
      end
  end.

(** ** [_extract_text_content] *)

(** [x.get('Geometry', {}).get('BoundingBox', {}).get(field, 0)] *)
Definition box_coord (field : BoundingBoxT -> option Q) (x : Block) : Q :=
  match Geometry x with
  | Some g =>
      match BoundingBox g with
      | Some bb => get (field bb) 0%Q
      | None => 0%Q
      end
  | None => 0%Q
  end.

(** The sort key [(Top, Left)] of reading order. *)
Definition reading_key (x : Block) : Q * Q := (box_coord Top x, box_coord Left x).

(** The loop that collects [text_lines]. *)
Definition text_lines_loop (text_lines : list string) (text_blocks : list Block)
    : list string :=
  foldl (fun lines block =>
           let text := PyStr.strip (get (Text block) "") in
           if PyStr.truthy text then lines ++ [text] else lines)
        text_lines text_blocks.

Definition _extract_text_content (blocks text_blocks : list Block) : string :=
  let text_blocks := PyList.sort PyList.lt_QQ reading_key text_blocks in
  PyStr.join PyStr.nl (text_lines_loop [] text_blocks).

(** ** [_process_textract_response] *)

(** [[b for b in blocks if b['BlockType'] == ty]] *)
Definition blocks_of_type (ty : string) (blocks : list Block) : list Block :=
  filter (fun b => BlockType b = ty) blocks.

(** Truth value of a list. *)
Definition nonempty {A} (l : list A) : bool :=
  match l with [] => false | _ => true end.

(** The loop over [key_value_pairs.items()]. *)
Definition pair_lines (key_value_pairs : dict) : list string :=
  map (fun '(key, value) => "**" +:+ key +:+ ":** " +:+ value) key_value_pairs.

(** The loop over [table_blocks]. *)
Fixpoint tables_loop (blocks cell_blocks : list Block) (result : list string)
    (table_blocks : list Block) : exc (list string) :=
  match table_blocks with
  | [] => ok result
  | table_block :: rest =>
      do table_content <- _extract_table_content blocks table_block cell_blocks;
      let result :=
        if PyStr.truthy table_content
        then result ++ [table_content] ++ [""]
        else result in
      tables_loop blocks cell_blocks result rest
  end.

(** The list [result] when the function reaches its [return]. *)
Definition report_lines (blocks : list Block) (doc_type : string)
    : exc (list string) :=
  let text_blocks := blocks_of_type "LINE" blocks in
  let table_blocks := blocks_of_type "TABLE" blocks in
  let cell_blocks := blocks_of_type "CELL" blocks in
  let key_value_blocks := blocks_of_type "KEY_VALUE_SET" blocks in
  let result := [] in
  let result := result ++ ["## " +:+ doc_type +:+ " Document Analysis" +:+ PyStr.nl] in
  let result :=
    if nonempty key_value_blocks then
      let result := result ++ ["### Key-Value Pairs (Forms)"] ++ [""] in
      let key_value_pairs := _extract_key_value_pairs blocks key_value_blocks in
      let result := result ++ pair_lines key_value_pairs in
      result ++ [""]
    else result in
  do result <-
    (if nonempty table_blocks then
       let result := result ++ ["### Tables"] ++ [""] in
       tables_loop blocks cell_blocks result table_blocks
     else ok result);
  let result :=
    if nonempty text_blocks then
      let result := result ++ ["### Text Content"] ++ [""] in
      let text_content := _extract_text_content blocks text_blocks in
      result ++ [text_content]
    else result in
  ok result.

(** [response.get('Blocks', [])] is the argument [blocks]. *)
Definition _process_textract_response (blocks : list Block) (doc_type : string)
    : exc string :=
  do result <- report_lines blocks doc_type;
  ok (PyStr.join PyStr.nl result).

(** ** Sample blocks *)

Module Sample.

Definition word (id text : string) : Block :=
  mkBlock id "WORD" (Some text) None None None None None.

Definition cell (id : string) (r c : option Z) (text : string) : Block :=
  mkBlock id "CELL" (Some text) None r c None None.

Definition table (id : string) (ids : list string) : Block :=
  mkBlock id "TABLE" None None None None None (Some [mkRel "CHILD" ids]).

Definition line (id text : string) (top left : Q) : Block :=
  mkBlock id "LINE" (Some text) None None None
    (Some (mkGeom (Some (mkBox (Some top) (Some left))))) None.

Definition key (id text : string) (rels : list Relationship) : Block :=
  mkBlock id "KEY_VALUE_SET" (Some text) (Some ["KEY"]) None None None (Some rels).

Definition value (id text : string) : Block :=
  mkBlock id "KEY_VALUE_SET" (Some text) (Some ["VALUE"]) None None None None.

(** The table of the round-trip scenario. *)
Definition item_qty : list Block :=
  [ table "t" ["c11"; "c12"; "c21"; "c22"];
    cell "c11" (Some 1) (Some 1) "Item"; cell "c12" (Some 1) (Some 2) "Qty";
    cell "c21" (Some 2) (Some 1) "Widget"; cell "c22" (Some 2) (Some 2) "3" ].

(** The end-to-end scenario. *)
Definition total_thanks : list Block :=
  [ key "k" "Total" [mkRel "VALUE" ["v"]]; value "v" "$500.00";
    line "l" "Thank you" (1 # 10) (1 # 10) ].

End Sample.

(** ** [_run]: the tool against its environment *)

(** The file system, the credentials, the object store, the analysis
    service and the source of random ids are outside the program: a
    state [World] that every call may read and change, and every call
    may raise. *)
Section Run.
Context {World : Type}.

Definition io (A : Type) : Type := World -> exc A * World.

Definition ret {A} (a : A) : io A := fun w => (inr a, w).
Definition throw {A} (e : PyExc) : io A := fun w => (inl e, w).
Definition bind {A B} (m : io A) (k : A -> io B) : io B :=
  fun w =>
    match m w with
    | (inl e, w') => (inl e, w')
    | (inr a, w') => k a w'
    end.
Definition lift {A} (m : exc A) : io A := fun w => (m, w).

Local Notation "'call' x <~ m ; k" := (bind m (fun x => k))
  (at level 10, x name, m at level 100, k at level 200).
Local Notation "'exec' m ; k" := (bind m (fun _ => k))
  (at level 10, m at level 100, k at level 200).

(** What a handler does: leave the function with a value, or fall
    through to the statement after the [try]. *)
Inductive flow (A : Type) : Type :=
  | Return (s : string)
  | Continue (a : A).
Arguments Return {A} s.
Arguments Continue {A} a.

(** [try: body except ...: handler], followed by [k].  [handler e] is
    [None] when no clause matches the class of [e]; an exception of the
    handler itself propagates. *)
Definition try_except {A} (body : io A)
    (handler : PyExc -> option (io (flow A))) (k : A -> io string) : io string :=
  fun w =>
    match body w with
    | (inr a, w') => k a w'
    | (inl e, w') =>
        match handler e with
        | None => (inl e, w')
        | Some h =>
            match h w' with
            | (inr (Return s), w'') => (inr s, w'')
            | (inr (Continue a), w'') => k a w''
            | (inl e', w'') => (inl e', w'')
            end
        end
    end.

Record Env : Type := mkEnv {
  os_path_exists : string -> io bool;
  boto3_client : string -> string -> io unit;
  uuid4_hex : io string;
  s3_create_bucket : string -> io unit;
  s3_upload_file : string -> string -> string -> io unit;
  (* the entry 'Blocks' of the response, when it has one *)
  textract_analyze_document : string -> string -> io (option (list Block));
  s3_delete_object : string -> string -> io unit;
  s3_delete_bucket : string -> io unit
}.

Variable env : Env.

(** [uuid.uuid4().hex[:8]] *)
Definition hex8 : io string :=
  call h <~ uuid4_hex env ; ret (String.substring 0 8 h).

Definition final_report (invoice_analysis po_analysis : string) : string :=
  "# INVOICE DOCUMENT ANALYSIS" +:+ PyStr.nl +:+ invoice_analysis +:+ PyStr.nl
  +:+ PyStr.nl +:+ "---" +:+ PyStr.nl +:+ PyStr.nl
  +:+ "# PURCHASE ORDER DOCUMENT ANALYSIS" +:+ PyStr.nl +:+ po_analysis.

(** The statements under the outer [try]. *)
Definition run_body (invoice_file_path po_file_path aws_region s3_bucket : string)
    : io string :=
  call inv_found <~ os_path_exists env invoice_file_path ;
  if negb inv_found
  then ret ("Error: Invoice file not found at path: " +:+ invoice_file_path)
  else
  call po_found <~ os_path_exists env po_file_path ;
  if negb po_found
  then ret ("Error: PO file not found at path: " +:+ po_file_path)
  else
  try_except
    (exec boto3_client env "textract" aws_region ;
     boto3_client env "s3" aws_region)
    (fun e => Some
       match e with
       | NoCredentialsError _ =>
           ret (Return
                  "Error: AWS credentials not found. Please configure your AWS credentials.")
       | _ => ret (Return ("Error initializing AWS clients: " +:+ exc_str e))
       end)
    (fun _ =>
  (* Handle S3 bucket *)
  (fun k : string -> io string =>
     if PyStr.truthy s3_bucket then k s3_bucket
     else
       call h <~ hex8 ;
       let s3_bucket := "textract-temp-" +:+ h in
       try_except (s3_create_bucket env s3_bucket)
         (fun e =>
            match e with
            | ClientError code _ => Some
                match code with
                | None => throw (KeyError "'Error'")
                | Some c =>
                    if decide (c <> "BucketAlreadyOwnedByYou")
                    then ret (Return ("Error creating S3 bucket: " +:+ exc_str e))
                    else ret (Continue tt)
                end
            | _ => None
            end)
         (fun _ => k s3_bucket))
  (fun s3_bucket =>
  (* Upload files to S3 *)
  call h1 <~ hex8 ;
  let invoice_s3_key := "invoice_" +:+ h1 +:+ ".pdf" in
  call h2 <~ hex8 ;
  let po_s3_key := "po_" +:+ h2 +:+ ".pdf" in
  try_except
    (exec s3_upload_file env invoice_file_path s3_bucket invoice_s3_key ;
     s3_upload_file env po_file_path s3_bucket po_s3_key)
    (fun e =>
       match e with
       | ClientError _ _ =>
           Some (ret (Return ("Error uploading files to S3: " +:+ exc_str e)))
       | _ => None
       end)
    (fun _ =>
  (* Analyze documents with Textract *)
  try_except
    (call invoice_response <~
       textract_analyze_document env s3_bucket invoice_s3_key ;
     call po_response <~
       textract_analyze_document env s3_bucket po_s3_key ;
     ret (invoice_response, po_response))
    (fun e =>
       match e with
       | ClientError _ _ =>
           Some (ret (Return ("Error analyzing documents with Textract: " +:+ exc_str e)))
       | _ => None
       end)
    (fun '(invoice_response, po_response) =>
  (* Process the responses *)
  call invoice_analysis <~
    lift (_process_textract_response (get invoice_response []) "INVOICE") ;
  call po_analysis <~
    lift (_process_textract_response (get po_response []) "PURCHASE ORDER") ;
  (* Clean up S3 files *)
  try_except
    (exec s3_delete_object env s3_bucket invoice_s3_key ;
     exec s3_delete_object env s3_bucket po_s3_key ;
     if PyStr.startswith "textract-temp-" s3_bucket
     then s3_delete_bucket env s3_bucket
     else ret tt)
    (fun e =>
       match e with
       | ClientError _ _ => Some (ret (Continue tt))
       | _ => None
       end)
    (fun _ => ret (final_report invoice_analysis po_analysis)))))).

(** The outer [try ... except Exception as e]. *)
Definition _run (invoice_file_path po_file_path aws_region s3_bucket : string)
    : io string :=
  try_except (run_body invoice_file_path po_file_path aws_region s3_bucket)
    (fun e => Some
       (ret (Return ("Error processing documents with Textract: " +:+ exc_str e))))
    ret.

End Run.

Arguments Env World : clear implicits.

(** * Notions of the specification and sample inputs *)

(** ** Text composition: notions *)

(** The texts of the WORD blocks that the [CHILD] relationships of a
    block reach through the index, in relationship order. *)
Definition word_child_texts (block : Block) (block_map : gmap string Block)
    : list string :=
  flat_map
    (fun relationship =>
       if decide (Type_ relationship = "CHILD") then
         flat_map
           (fun child_id =>
              match block_map !! child_id with
              | Some child_block =>
                  if decide (BlockType child_block = "WORD")
                  then [get (Text child_block) ""]
                  else []
              | None => []
              end) (Ids relationship)
       else [])
    (get (Relationships block) []).

(** The literal text of the block, when it has one. *)
Definition own_text (block : Block) : list string :=
  match Text block with Some t => [t] | None => [] end.

(** ** Form fields: notions *)

(** The block a VALUE relationship resolves to: the first of its ids
    that the index maps to a block of role VALUE. *)
Fixpoint first_value_block (block_map : gmap string Block) (ids : list string)
    : option Block :=
  match ids with
  | [] => None
  | value_id :: rest =>
      match block_map !! value_id with
      | Some value_block =>
          if has_role "VALUE" value_block then Some value_block
          else first_value_block block_map rest
      | None => first_value_block block_map rest
      end
  end.

(** The blocks the VALUE relationships of a KEY block resolve to, one
    per relationship that resolves, in relationship order. *)
Definition value_candidates (block_map : gmap string Block) (kv_block : Block)
    : list Block :=
  omap (fun relationship =>
          if decide (Type_ relationship = "VALUE")
          then first_value_block block_map (Ids relationship)
          else None)
       (get (Relationships kv_block) []).

(** The pair a KEY block yields, when its name and its value are both
    non-empty. *)
Definition pair_of_key (block_map : gmap string Block) (kv_block : Block)
    : option (string * string) :=
  if has_role "KEY" kv_block then
    let key_text := _get_text_from_block kv_block block_map in
    let value_text := find_value_text block_map kv_block in
    if PyStr.truthy key_text && PyStr.truthy value_text
    then Some (key_text, value_text)
    else None
  else None.

(** The pairs of the KEY blocks in the order the blocks are met, every
    KEY block counted. *)
Definition emitted_pairs (block_map : gmap string Block)
    (key_value_blocks : list Block) : list (string * string) :=
  omap (pair_of_key block_map) key_value_blocks.

(** Each name once, at the place of its first occurrence. *)
Fixpoint first_occurrences (names : list string) : list string :=
  match names with
  | [] => []
  | n :: rest => n :: filter (fun m => m <> n) (first_occurrences rest)
  end.

(** [d.get(k)] *)
Fixpoint dict_get (k : string) (d : dict) : option string :=
  match d with
  | [] => None
  | (k', v') :: d' => if decide (k' = k) then Some v' else dict_get k d'
  end.

(** A KEY block with two VALUE relationships, each resolving. *)
Definition two_values : list Block :=
  [ Sample.key "k" "Total" [mkRel "VALUE" ["v1"]; mkRel "VALUE" ["v2"]];
    Sample.value "v1" "first"; Sample.value "v2" "second" ].

(** Two KEY blocks of the same name. *)
Definition same_name : list Block :=
  [ Sample.key "k1" "Total" [mkRel "VALUE" ["v1"]]; Sample.value "v1" "1";
    Sample.key "k2" "Total" [mkRel "VALUE" ["v2"]]; Sample.value "v2" "2" ].

(** The dictionary a sequence of assignments builds. *)
Definition dict_of (l : list (string * string)) : dict :=
  foldl (fun d p => dict_set p.1 p.2 d) [] l.

(** A KEY block whose VALUE relationship names an id that no block has. *)
Definition dangling_key : list Block :=
  [ Sample.key "k" "Total" [mkRel "VALUE" ["missing"]] ].

(** A KEY block with two VALUE relationships that both resolve, the
    first one to a block without text. *)
Definition blank_first_value : list Block :=
  [ Sample.key "k" "Total" [mkRel "VALUE" ["v1"]; mkRel "VALUE" ["v2"]];
    Sample.value "v1" ""; Sample.value "v2" "x" ].

(** ** Free text: notions *)

(** Reading order, in the words of the specification: the top of [x] is
    smaller, or the tops are equal and the left of [x] is not larger. *)
Definition reading_le (x y : Block) : Prop :=
  (box_coord Top x < box_coord Top y
   \/ (box_coord Top x == box_coord Top y
       /\ box_coord Left x <= box_coord Left y))%Q.

(** The block stands at the coordinates [(t, l)]. *)
Definition at_place (t l : Q) (x : Block) : Prop :=
  (box_coord Top x == t /\ box_coord Left x == l)%Q.

#[local] Instance at_place_dec t l x : Decision (at_place t l x).
Proof.
  unfold at_place.
  destruct (Qeq_dec (box_coord Top x) t); destruct (Qeq_dec (box_coord Left x) l);
    [left | right | right | right]; tauto.
Defined.

(** The trimmed text of a LINE block. *)
Definition trimmed_text (block : Block) : string :=
  PyStr.strip (get (Text block) "").

(** Two lines on the same left, the first lower on the page. *)
Definition two_lines : list Block :=
  [ Sample.line "a" " lower " (1 # 10) (1 # 20);
    Sample.line "b" "upper" (1 # 20) (1 # 20) ].

(** ** Tables: notions *)

(** The entry of a grid at row [i], column [j] (both from 0). *)
Definition grid_at (g : grid) (i j : nat) : option (option string) :=
  g !! i ≫= fun r => r !! j.

(** A grid of [R] rows of [C] entries each. *)
Definition grid_shape (g : grid) (R C : nat) : Prop :=
  length g = R /\ Forall (fun r => length r = C) g.

(** Where a non-negative index [k] lands on an axis of length [len]:
    [k - 1], and the last place for [k = 0]. *)
Definition axis_pos (len : nat) (k : Z) : nat :=
  if (k =? 0)%Z then (len - 1)%nat else Z.to_nat (k - 1).

(** The cells have the same sort key. *)
Definition same_key (c x : Block) : Prop := cell_key x = cell_key c.

#[local] Instance same_key_dec c x : Decision (same_key c x).
Proof. unfold same_key. apply _. Defined.

(** The cells of a TABLE block that its [CHILD] relationships reach
    through the index, in relationship order. *)
Definition child_cells (block_map : gmap string Block) (table_block : Block)
    : list Block :=
  flat_map
    (fun relationship =>
       if decide (Type_ relationship = "CHILD") then
         flat_map
           (fun cell_id =>
              match block_map !! cell_id with
              | Some cell_block =>
                  if decide (BlockType cell_block = "CELL") then [cell_block] else []
              | None => []
              end) (Ids relationship)
       else [])
    (get (Relationships table_block) []).

(** The place a cell is stored at in a grid of [R] rows and [C] columns,
    when both of its indices resolve. *)
Definition cell_pos (R C : nat) (cell : Block) : option (nat * nat) :=
  match PyList.norm_index R (row_key cell - 1),
        PyList.norm_index C (col_key cell - 1) with
  | Some i, Some j => Some (i, j)
  | _, _ => None
  end.

(** A table with two cells at row 1, column 1. *)
Definition twice_11 : list Block :=
  [ Sample.table "t" ["a"; "b"; "c"];
    Sample.cell "a" (Some 1) (Some 1) "old";
    Sample.cell "b" (Some 1) (Some 2) "x";
    Sample.cell "c" (Some 1) (Some 1) "new" ].

(** A table with a cell that has neither index. *)
Definition no_index : list Block :=
  [ Sample.table "t" ["c11"; "c12"; "s"];
    Sample.cell "c11" (Some 1) (Some 1) "Item";
    Sample.cell "c12" (Some 1) (Some 2) "Qty";
    Sample.cell "s" None None "stray" ].

(** ** Report: notions *)

(** The three subsections as [_process_textract_response] appends them
    to [result]. *)
Definition kv_section (blocks : list Block) : list string :=
  let key_value_blocks := blocks_of_type "KEY_VALUE_SET" blocks in
  if nonempty key_value_blocks then
    ["### Key-Value Pairs (Forms)"; ""]
    ++ pair_lines (_extract_key_value_pairs blocks key_value_blocks) ++ [""]
  else [].

Definition tables_section (blocks : list Block) : exc (list string) :=
  let table_blocks := blocks_of_type "TABLE" blocks in
  if nonempty table_blocks then
    do contents <- tables_loop blocks (blocks_of_type "CELL" blocks) [] table_blocks;
    ok (["### Tables"; ""] ++ contents)
  else ok [].

Definition text_section (blocks : list Block) : list string :=
  let text_blocks := blocks_of_type "LINE" blocks in
  if nonempty text_blocks then
    ["### Text Content"; ""; _extract_text_content blocks text_blocks]
  else [].

Definition report_header (doc_type : string) : string :=
  "## " +:+ doc_type +:+ " Document Analysis" +:+ PyStr.nl.

(** No index of a cell of a table of the collection is negative. *)
Definition indices_not_negative (blocks : list Block) : Prop :=
  forall table_block c,
    table_block ∈ blocks_of_type "TABLE" blocks ->
    c ∈ resolve_cells (make_block_map blocks) table_block ->
    (0 <= row_key c)%Z /\ (0 <= col_key c)%Z.

(** A form block that is no KEY, a table without cells and a line of
    blanks: nothing is extracted from any of them. *)
Definition nothing_to_extract : list Block :=
  [ Sample.value "v" "x"; Sample.table "t" []; Sample.line "l" "  " 0 0 ].

(** ** The tool: notions *)

(** An environment in which every call succeeds and the analysis of
    either document answers with [blocks]. *)
Definition quiet_env (blocks : list Block) : Env unit :=
  {| os_path_exists := fun _ => ret true;
     boto3_client := fun _ _ => ret tt;
     uuid4_hex := ret "0123456789abcdef0123456789abcdef";
     s3_create_bucket := fun _ => ret tt;
     s3_upload_file := fun _ _ _ => ret tt;
     textract_analyze_document := fun _ _ => ret (Some blocks);
     s3_delete_object := fun _ _ => ret tt;
     s3_delete_bucket := fun _ => ret tt |}.

(** A table whose only cell has the row index -5: storing it raises. *)
Definition bad_row : list Block :=
  [ Sample.table "t" ["c"]; Sample.cell "c" (Some (-5)%Z) (Some 1%Z) "x" ].

(** A block with three WORD children, the second without text. *)
Definition gap_words : list Block :=
  [ mkBlock "c" "CELL" None None (Some 1%Z) (Some 1%Z) None
      (Some [mkRel "CHILD" ["w1"; "w2"; "w3"]]);
    Sample.word "w1" "a";
    mkBlock "w2" "WORD" None None None None None None;
    Sample.word "w3" "b" ].

(** ** Further notions and sample inputs *)

(** What [_get_text_from_block] reads of a block it reaches through the
    index: its type and its own text. *)
Definition face (b : Block) : string * option string := (BlockType b, Text b).

(** The rendering of one row of the grid. *)
Definition row_line (row : list (option string)) : string :=
  markdown_line (map cell_or_empty row).

(** The separator line under a header of [n] fields. *)
Definition separator_line (n : nat) : string :=
  markdown_line (replicate n "---").

(** A word with a child of its own: the child is not part of the text of
    a block that has the word as a child. *)
Definition nested_words : list Block :=
  [ mkBlock "l" "LINE" None None None None None (Some [mkRel "CHILD" ["w"]]);
    mkBlock "w" "WORD" (Some "outer") None None None None
      (Some [mkRel "CHILD" ["g"]]);
    Sample.word "g" "inner" ].

(** The same collection with the inner word cut off. *)
Definition flat_words : list Block :=
  [ mkBlock "l" "LINE" None None None None None (Some [mkRel "CHILD" ["w"]]);
    Sample.word "w" "outer" ].

(** A table whose only cell has negative indices. *)
Definition below_zero : list Block :=
  [ Sample.table "t" ["c"]; Sample.cell "c" (Some (-1)%Z) (Some (-1)%Z) "x" ].

(** The two lines of [two_lines] in the other order. *)
Definition two_lines_swapped : list Block :=
  [ Sample.line "b" "upper" (1 # 20) (1 # 20);
    Sample.line "a" " lower " (1 # 10) (1 # 20) ].

(** The table of the round-trip scenario with its cells listed in
    another order. *)
Definition item_qty_shuffled : Block :=
  Sample.table "t" ["c22"; "c11"; "c21"; "c12"].

(** ** The outside as a history of calls *)

(** The calls [_run] makes to its environment. *)
Inductive Call : Type :=
  | CallPathExists (path : string)
  | CallClient (service region : string)
  | CallUuid4
  | CallCreateBucket (bucket : string)
  | CallUploadFile (file bucket key : string)
  | CallAnalyzeDocument (bucket key : string)
  | CallDeleteObject (bucket key : string)
  | CallDeleteBucket (bucket : string).

(** An outside world that answers every call as it pleases, the answer
    depending on the call and on the calls made before it. *)
Record Outside : Type := mkOutside {
  answer_path_exists : list Call -> string -> exc bool;
  answer_client : list Call -> string -> string -> exc unit;
  answer_uuid4 : list Call -> exc string;
  answer_create_bucket : list Call -> string -> exc unit;
  answer_upload_file : list Call -> string -> string -> string -> exc unit;
  answer_analyze_document :
    list Call -> string -> string -> exc (option (list Block));
  answer_delete_object : list Call -> string -> string -> exc unit;
  answer_delete_bucket : list Call -> string -> exc unit
}.

(** A call is answered from the history and appended to it. *)
Definition recorded {A} (answer : list Call -> exc A) (c : Call)
    : @io (list Call) A :=
  fun history => (answer history, history ++ [c]).

(** The environment that keeps the history of the calls as its state. *)
Definition recording_env (o : Outside) : Env (list Call) :=
  {| os_path_exists := fun p =>
       recorded (fun h => answer_path_exists o h p) (CallPathExists p);
     boto3_client := fun service region =>
       recorded (fun h => answer_client o h service region)
                (CallClient service region);
     uuid4_hex := recorded (answer_uuid4 o) CallUuid4;
     s3_create_bucket := fun b =>
       recorded (fun h => answer_create_bucket o h b) (CallCreateBucket b);
     s3_upload_file := fun f b k =>
       recorded (fun h => answer_upload_file o h f b k) (CallUploadFile f b k);
     textract_analyze_document := fun b k =>
       recorded (fun h => answer_analyze_document o h b k)
                (CallAnalyzeDocument b k);
     s3_delete_object := fun b k =>
       recorded (fun h => answer_delete_object o h b k) (CallDeleteObject b k);
     s3_delete_bucket := fun b =>
       recorded (fun h => answer_delete_bucket o h b) (CallDeleteBucket b) |}.

(** The bucket a call names, when it names one. *)
Definition bucket_of (c : Call) : option string :=
  match c with
  | CallCreateBucket b | CallUploadFile _ b _ | CallAnalyzeDocument b _
  | CallDeleteObject b _ | CallDeleteBucket b => Some b
  | _ => None
  end.

Definition is_create_bucket (c : Call) : bool :=
  match c with CallCreateBucket _ => true | _ => false end.

Definition is_delete (c : Call) : bool :=
  match c with CallDeleteObject _ _ | CallDeleteBucket _ => true | _ => false end.

Definition is_aws_call (c : Call) : bool :=
  match c with CallPathExists _ => false | _ => true end.

(** The answer of a cleanup call that succeeds ([None]) or raises a
    [ClientError] with a code and a text. *)
Definition cleanup_answer (a : option (option string * string)) : exc unit :=
  match a with
  | None => ok tt
  | Some (code, msg) => raise (ClientError code msg)
  end.

(** The outside [o] with other answers to the two cleanup calls. *)
Definition with_cleanup
    (on_object : list Call -> string -> string -> option (option string * string))
    (on_bucket : list Call -> string -> option (option string * string))
    (o : Outside) : Outside :=
  {| answer_path_exists := answer_path_exists o;
     answer_client := answer_client o;
     answer_uuid4 := answer_uuid4 o;
     answer_create_bucket := answer_create_bucket o;
     answer_upload_file := answer_upload_file o;
     answer_analyze_document := answer_analyze_document o;
     answer_delete_object := fun h b k => cleanup_answer (on_object h b k);
     answer_delete_bucket := fun h b => cleanup_answer (on_bucket h b) |}.

(** An outside in which every call succeeds, the analysis answering
    with [blocks]; [analysis] is the answer to an analysis call. *)
Definition calm (analysis : exc (option (list Block))) : Outside :=
  {| answer_path_exists := fun _ _ => ok true;
     answer_client := fun _ _ _ => ok tt;
     answer_uuid4 := fun _ => ok "0123456789abcdef0123456789abcdef";
     answer_create_bucket := fun _ _ => ok tt;
     answer_upload_file := fun _ _ _ _ => ok tt;
     answer_analyze_document := fun _ _ _ => analysis;
     answer_delete_object := fun _ _ _ => ok tt;
     answer_delete_bucket := fun _ _ => ok tt |}.

(** An outside without the invoice file. *)
Definition no_invoice : Outside :=
  {| answer_path_exists := fun _ _ => ok false;
     answer_client := fun _ _ _ => ok tt;
     answer_uuid4 := fun _ => ok "0123456789abcdef0123456789abcdef";
     answer_create_bucket := fun _ _ => ok tt;
     answer_upload_file := fun _ _ _ _ => ok tt;
     answer_analyze_document := fun _ _ _ => ok None;
     answer_delete_object := fun _ _ _ => ok tt;
     answer_delete_bucket := fun _ _ => ok tt |}.

(** An outside in which the analysis is refused. *)
Definition refused_analysis : Outside :=
  calm (raise (ClientError (Some "AccessDeniedException") "access denied")).

(** Cleanup answers: every call succeeds, every call is refused. *)
Definition object_deleted
    : list Call -> string -> string -> option (option string * string) :=
  fun _ _ _ => None.

Definition bucket_deleted
    : list Call -> string -> option (option string * string) :=
  fun _ _ => None.

Definition object_refused
    : list Call -> string -> string -> option (option string * string) :=
  fun _ _ _ => Some (Some "AccessDenied", "access denied").

Definition bucket_refused
    : list Call -> string -> option (option string * string) :=
  fun _ _ => Some (Some "AccessDenied", "access denied").

(** ** [tools/custom_tool.py]: [MarkItDownTool] *)

Module MarkItDownTool.

Section Run.
Context {World : Type}.

Local Notation "'call' x <~ m ; k" := (bind (World:=World) m (fun x => k))
  (at level 10, x name, m at level 100, k at level 200).

(** The file system and the converter.  [md_convert p] is
    [md.convert(p).text_content]: a text, or [None]. *)
Record Env : Type := mkEnv {
  os_path_exists : string -> @io World bool;
  new_MarkItDown : @io World unit;
  md_convert : string -> @io World (option string)
}.

Variable env : Env.

(** [text_content if text_content else warning] *)
Definition content_or_warning (text_content : option string) (warning : string)
    : string :=
  match text_content with
  | Some t => if PyStr.truthy t then t else warning
  | None => warning
  end.

Definition both_documents (invoice_content po_content : string) : string :=
  "# INVOICE DOCUMENT" +:+ PyStr.nl +:+ invoice_content +:+ PyStr.nl
  +:+ PyStr.nl +:+ "---" +:+ PyStr.nl +:+ PyStr.nl
  +:+ "# PURCHASE ORDER DOCUMENT" +:+ PyStr.nl +:+ po_content.

(** The statements under the [try]. *)
Definition run_body (invoice_file_path po_file_path : string) : @io World string :=
  call inv_found <~ os_path_exists env invoice_file_path ;
  if negb inv_found
  then ret ("Error: Invoice file not found at path: " +:+ invoice_file_path)
  else
  call po_found <~ os_path_exists env po_file_path ;
  if negb po_found
  then ret ("Error: PO file not found at path: " +:+ po_file_path)
  else
  call md <~ new_MarkItDown env ;
  call invoice_text <~ md_convert env invoice_file_path ;
  let invoice_content :=
    content_or_warning invoice_text
      ("Warning: No text content extracted from invoice file "
       +:+ invoice_file_path) in
  call po_text <~ md_convert env po_file_path ;
  let po_content :=
    content_or_warning po_text
      ("Warning: No text content extracted from PO file " +:+ po_file_path) in
  ret (both_documents invoice_content po_content).

(** [try ... except Exception as e] *)
Definition _run (invoice_file_path po_file_path : string) : @io World string :=
  fun w =>
    match run_body invoice_file_path po_file_path w with
    | (inl e, w') =>
        (inr ("Error converting files to markdown: " +:+ exc_str e), w')
    | (inr s, w') => (inr s, w')
    end.

End Run.

Arguments Env World : clear implicits.

(** The calls the tool makes. *)
Inductive Call : Type :=
  | CallPathExists (path : string)
  | CallMarkItDown
  | CallConvert (path : string).

(** An outside that answers from the history of the calls. *)
Record Outside : Type := mkOutside {
  answer_path_exists : list Call -> string -> exc bool;
  answer_MarkItDown : list Call -> exc unit;
  answer_convert : list Call -> string -> exc (option string)
}.

Definition recording_env (o : Outside) : Env (list Call) :=
  {| os_path_exists := fun p h =>
       (answer_path_exists o h p, h ++ [CallPathExists p]);
     new_MarkItDown := fun h => (answer_MarkItDown o h, h ++ [CallMarkItDown]);
     md_convert := fun p h => (answer_convert o h p, h ++ [CallConvert p]) |}.

(** An outside in which both files exist and convert to no text. *)
Definition blank_files : Outside :=
  {| answer_path_exists := fun _ _ => ok true;
     answer_MarkItDown := fun _ => ok tt;
     answer_convert := fun _ _ => ok (Some "") |}.

End MarkItDownTool.

(** ** [main.py]: the commands *)

Module Main.

(** The framework calls of the commands, and [print]. *)
Inductive Call : Type :=
  | CallCrewBase                 (* PoInvoiceDiscrepancyAnalyzerCrew() *)
  | CallCrew                     (* .crew() *)
  | CallKickoff (inputs : list (string * string))
  | CallTrain (n_iterations : Z) (filename : string)
              (inputs : list (string * string))
  | CallReplay (task_id : string)
  | CallTest (n_iterations : Z) (openai_model_name : string)
             (inputs : list (string * string))
  | CallPrint (text : string).

(** How the script ends when nothing is raised: it runs to its end, or
    [sys.exit(code)] ends it. *)
Inductive Outcome : Type :=
  | Completed
  | SysExit (code : Z).

Section Commands.
Context {World : Type}.

Local Notation "'call' x <~ m ; k" := (bind (World:=World) m (fun x => k))
  (at level 10, x name, m at level 100, k at level 200).
Local Notation "'exec' m ; k" := (bind (World:=World) m (fun _ => k))
  (at level 10, m at level 100, k at level 200).

Record Env : Type := mkEnv {
  new_crew_base : @io World unit;
  crew : @io World unit;
  kickoff : list (string * string) -> @io World unit;
  crew_train : Z -> string -> list (string * string) -> @io World unit;
  crew_replay : string -> @io World unit;
  crew_test : Z -> string -> list (string * string) -> @io World unit;
  print : string -> @io World unit
}.

Variable env : Env.

(** The built-in [int] applied to a string. *)
Variable int : string -> exc Z.

(** [sys.argv] *)
Variable argv : list string.

(** [l[i]] for an index that is not negative. *)
Definition item (l : list string) (i : nat) : exc string :=
  match l !! i with
  | Some x => ok x
  | None => raise (IndexError "list index out of range")
  end.

(** [try: body except Exception as e: raise Exception(prefix + str(e))] *)
Definition reraise_as (prefix : string) (body : @io World unit) : @io World unit :=
  fun w =>
    match body w with
    | (inl e, w') => (inl (OtherException (prefix +:+ exc_str e)), w')
    | r => r
    end.

Definition run_inputs : list (string * string) :=
  [ ("po_file_path", "/Users/bonvie/Desktop/Invoices/examplePO.png");
    ("invoice_file_path", "/Users/bonvie/Desktop/Invoices/sampleinvoice.pdf");
    ("recipient_email", "your-email@example.com") ].

Definition sample_inputs : list (string * string) :=
  [ ("po_file_path", "sample_value");
    ("invoice_file_path", "sample_value");
    ("recipient_email", "sample_value") ].

Definition run : @io World unit :=
  let inputs := run_inputs in
  exec new_crew_base env ;
  exec crew env ;
  kickoff env inputs.

(** The callee [PoInvoiceDiscrepancyAnalyzerCrew().crew().train] is
    evaluated before the arguments. *)
Definition train : @io World unit :=
  let inputs := sample_inputs in
  reraise_as "An error occurred while training the crew: "
    (exec new_crew_base env ;
     exec crew env ;
     call a1 <~ lift (item argv 1) ;
     call n_iterations <~ lift (int a1) ;
     call filename <~ lift (item argv 2) ;
     crew_train env n_iterations filename inputs).

Definition replay : @io World unit :=
  reraise_as "An error occurred while replaying the crew: "
    (exec new_crew_base env ;
     exec crew env ;
     call task_id <~ lift (item argv 1) ;
     crew_replay env task_id).

Definition test : @io World unit :=
  let inputs := sample_inputs in
  reraise_as "An error occurred while testing the crew: "
    (exec new_crew_base env ;
     exec crew env ;
     call a1 <~ lift (item argv 1) ;
     call n_iterations <~ lift (int a1) ;
     call openai_model_name <~ lift (item argv 2) ;
     crew_test env n_iterations openai_model_name inputs).

(** The statements under [if __name__ == "__main__":]. *)
Definition main : @io World Outcome :=
  if (length argv <? 2)%nat then
    exec print env "Usage: main.py <command> [<args>]" ;
    ret (SysExit 1)
  else
    call command <~ lift (item argv 1) ;
    if decide (command = "run") then exec run ; ret Completed
    else if decide (command = "train") then exec train ; ret Completed
    else if decide (command = "replay") then exec replay ; ret Completed
    else if decide (command = "test") then exec test ; ret Completed
    else
      exec print env ("Unknown command: " +:+ command) ;
      ret (SysExit 1).

End Commands.

Arguments Env World : clear implicits.

(** An outside that answers from the history of the calls. *)
Record Outside : Type := mkOutside {
  answer_crew_base : list Call -> exc unit;
  answer_crew : list Call -> exc unit;
  answer_kickoff : list Call -> list (string * string) -> exc unit;
  answer_train : list Call -> Z -> string -> list (string * string) -> exc unit;
  answer_replay : list Call -> string -> exc unit;
  answer_test : list Call -> Z -> string -> list (string * string) -> exc unit;
  answer_print : list Call -> string -> exc unit
}.

Definition recording_env (o : Outside) : Env (list Call) :=
  {| new_crew_base := fun h => (answer_crew_base o h, h ++ [CallCrewBase]);
     crew := fun h => (answer_crew o h, h ++ [CallCrew]);
     kickoff := fun i h => (answer_kickoff o h i, h ++ [CallKickoff i]);
     crew_train := fun n f i h => (answer_train o h n f i, h ++ [CallTrain n f i]);
     crew_replay := fun t h => (answer_replay o h t, h ++ [CallReplay t]);
     crew_test := fun n m i h => (answer_test o h n m i, h ++ [CallTest n m i]);
     print := fun s h => (answer_print o h s, h ++ [CallPrint s]) |}.

(** An outside in which every call succeeds. *)
Definition willing : Outside :=
  {| answer_crew_base := fun _ => ok tt;
     answer_crew := fun _ => ok tt;
     answer_kickoff := fun _ _ => ok tt;
     answer_train := fun _ _ _ _ => ok tt;
     answer_replay := fun _ _ => ok tt;
     answer_test := fun _ _ _ _ => ok tt;
     answer_print := fun _ _ => ok tt |}.

(** A stand-in for [int] on the numerals the examples use: a non-empty
    run of the digits 0 to 9 is read in base ten, anything else is
    refused. *)
Fixpoint digits_value (acc : Z) (s : string) : option Z :=
  match s with
  | EmptyString => Some acc
  | String c s' =>
      let n := nat_of_ascii c in
      if ((48 <=? n) && (n <=? 57))%nat
      then digits_value (10 * acc + Z.of_nat (n - 48)) s'
      else None
  end.

Definition numeral_int (s : string) : exc Z :=
  match s with
  | EmptyString => raise (OtherException "invalid literal for int() with base 10")
  | _ =>
      match digits_value 0 s with
      | Some n => ok n
      | None => raise (OtherException "invalid literal for int() with base 10")
      end
  end.

(** The call of the training that the command line asks for: there is
    one when [int] reads the second entry and a third entry follows. *)
Definition train_call (int : string -> exc Z) (argv : list string)
    : option Call :=
  match argv !! 1%nat with
  | Some a1 =>
      match int a1, argv !! 2%nat with
      | inr n_iterations, Some filename =>
          Some (CallTrain n_iterations filename sample_inputs)
      | _, _ => None
      end
  | None => None
  end.

End Main.

(** The calls of a run of the Textract tool that nothing interrupts, for
    the bucket [b] and the object keys [k1] and [k2]: the bucket is
    created only when no name was given, and deleted last. *)
Definition full_run (invoice_file_path po_file_path aws_region s3_bucket : string)
    (b k1 k2 : string) : list Call :=
  [ CallPathExists invoice_file_path; CallPathExists po_file_path;
    CallClient "textract" aws_region; CallClient "s3" aws_region ]
  ++ (if PyStr.truthy s3_bucket then [] else [CallUuid4; CallCreateBucket b])
  ++ [ CallUuid4; CallUuid4;
       CallUploadFile invoice_file_path b k1; CallUploadFile po_file_path b k2;
       CallAnalyzeDocument b k1; CallAnalyzeDocument b k2;
       CallDeleteObject b k1; CallDeleteObject b k2;
       CallDeleteBucket b ].

(** * Properties *)

(** ** Strings *)

Module PyStrFacts.
Import PyStr.

Lemma app_cons (c : ascii) (s t : string) : String c s +:+ t = String c (s +:+ t).
Proof. reflexivity. Qed.

Lemma app_nil_l (s : string) : "" +:+ s = s.
Proof. reflexivity. Qed.

Lemma app_nil_r (s : string) : s +:+ "" = s.
Proof. induction s as [|c s IH]; [reflexivity | now rewrite app_cons, IH]. Qed.

Lemma app_assoc (s1 s2 s3 : string) : (s1 +:+ s2) +:+ s3 = s1 +:+ (s2 +:+ s3).
Proof.
  induction s1 as [|c s1 IH]; [reflexivity | now rewrite !app_cons, IH].
Qed.

Lemma length_app (s1 s2 : string) :
  String.length (s1 +:+ s2) = (String.length s1 + String.length s2)%nat.
Proof.
  induction s1 as [|c s1 IH]; [reflexivity|].
  rewrite app_cons. simpl. now rewrite IH.
Qed.

(** Joining a list cut in two non-empty pieces puts the separator
    once at the cut. *)
Lemma join_app (sep : string) (xs ys : list string) :
  xs <> [] -> ys <> [] ->
  join sep (xs ++ ys) = join sep xs +:+ sep +:+ join sep ys.
Proof.
  intros Hx Hy. induction xs as [|x xs IH]; [congruence|].
  destruct xs as [|x' xs].
  - destruct ys as [|y ys]; [congruence | reflexivity].
  - change (join sep ((x :: x' :: xs) ++ ys))
      with (x +:+ sep +:+ join sep ((x' :: xs) ++ ys)).
    rewrite IH by discriminate.
    change (join sep (x :: x' :: xs)) with (x +:+ sep +:+ join sep (x' :: xs)).
    now rewrite !app_assoc.
Qed.

Lemma join_cons (sep p : string) (rest : list string) :
  rest <> [] -> join sep (p :: rest) = p +:+ sep +:+ join sep rest.
Proof. destruct rest; [congruence | reflexivity]. Qed.

Lemma lstrip_spec (s : string) :
  exists pre, s = pre +:+ lstrip s /\ all_space pre = true
              /\ head_space (lstrip s) = false.
Proof.
  induction s as [|c s (pre & Heq & Hpre & Hhd)]; simpl.
  - now exists "".
  - destruct (isspace c) eqn:Hc.
    + exists (String c pre). rewrite app_cons. simpl. rewrite Hc, Hpre.
      repeat split; [congruence | assumption].
    + exists "". rewrite app_nil_l. simpl. now rewrite Hc.
Qed.

Lemma rstrip_spec (s : string) :
  exists post, s = rstrip s +:+ post /\ all_space post = true
               /\ last_space (rstrip s) = false
               /\ (head_space s = false -> head_space (rstrip s) = false).
Proof.
  induction s as [|c s (post & Heq & Hpost & Hlast & _)]; simpl.
  - now exists "".
  - destruct (rstrip s) as [|c' r] eqn:Hr.
    + rewrite app_nil_l in Heq. subst post. destruct (isspace c) eqn:Hc.
      * exists (String c s). rewrite app_nil_l. simpl. now rewrite Hc, Hpost.
      * exists s. rewrite app_cons, app_nil_l. simpl. now rewrite Hc.
    + exists post. rewrite app_cons.
      repeat split; [congruence | assumption | exact Hlast | auto ].
Qed.

(** What [strip] removes is whitespace, and what it leaves neither
    starts nor ends with whitespace. *)
Lemma strip_spec (s : string) :
  exists pre post,
    s = pre +:+ strip s +:+ post
    /\ all_space pre = true /\ all_space post = true
    /\ head_space (strip s) = false /\ last_space (strip s) = false.
Proof.
  unfold strip.
  destruct (lstrip_spec s) as (pre & Heq & Hpre & Hhd).
  destruct (rstrip_spec (lstrip s)) as (post & Heq' & Hpost & Hlast & Hkeep).
  exists pre, post. repeat split; auto.
  now rewrite <- Heq'.
Qed.

Lemma truthy_false (s : string) : truthy s = false <-> s = "".
Proof. destruct s; simpl; split; congruence. Qed.

Lemma truthy_true (s : string) : truthy s = true <-> s <> "".
Proof. destruct s; simpl; split; congruence. Qed.

End PyStrFacts.

(** ** Text composition *)

Lemma child_words_loop_spec block_map parts ids :
  child_words_loop block_map parts ids =
  parts ++ flat_map
             (fun child_id =>
                match block_map !! child_id with
                | Some child_block =>
                    if decide (BlockType child_block = "WORD")
                    then [get (Text child_block) ""]
                    else []
                | None => []
                end) ids.
Proof.
  unfold child_words_loop. revert parts.
  induction ids as [|i ids IH]; intros parts; simpl.
  - now rewrite List.app_nil_r.
  - rewrite IH. destruct (block_map !! i) as [cb|]; [|reflexivity].
    destruct (decide (BlockType cb = "WORD")); [|reflexivity].
    now rewrite <- List.app_assoc.
Qed.

Lemma child_rels_loop_spec block_map parts rels :
  child_rels_loop block_map parts rels =
  parts ++ flat_map
             (fun relationship =>
                if decide (Type_ relationship = "CHILD") then
                  flat_map
                    (fun child_id =>
                       match block_map !! child_id with
                       | Some child_block =>
                           if decide (BlockType child_block = "WORD")
                           then [get (Text child_block) ""]
                           else []
                       | None => []
                       end) (Ids relationship)
                else []) rels.
Proof.
  unfold child_rels_loop. revert parts.
  induction rels as [|r rels IH]; intros parts; simpl.
  - now rewrite List.app_nil_r.
  - rewrite IH. destruct (decide (Type_ r = "CHILD")); [|reflexivity].
    rewrite child_words_loop_spec. now rewrite <- List.app_assoc.
Qed.

Lemma text_parts_of_spec block block_map :
  text_parts_of block block_map = own_text block ++ word_child_texts block block_map.
Proof.
  unfold text_parts_of, own_text, word_child_texts.
  destruct (Relationships block) as [rels|]; simpl.
  - rewrite child_rels_loop_spec. now destruct (Text block).
  - destruct (Text block); reflexivity.
Qed.

(** C7.  The composed text of a block is the trimmed join, with one
    space, of its own text (when present) followed by the texts of its
    CHILD-related WORD blocks in relationship order; an empty or absent
    child text is a part like any other.  Wherever the parts are cut in
    two, exactly one space stands at the cut, and trimming removes
    whitespace only, at both ends. *)
Theorem get_text_from_block_composition (block : Block) (block_map : gmap string Block) :
  let parts := own_text block ++ word_child_texts block block_map in
  let joined := PyStr.join " " parts in
  _get_text_from_block block block_map = PyStr.strip joined
  /\ (forall p1 p2, parts = p1 ++ p2 -> p1 <> [] -> p2 <> [] ->
        joined = PyStr.join " " p1 +:+ " " +:+ PyStr.join " " p2)
  /\ (exists pre post,
        joined = pre +:+ _get_text_from_block block block_map +:+ post
        /\ PyStr.all_space pre = true /\ PyStr.all_space post = true
        /\ PyStr.head_space (_get_text_from_block block block_map) = false
        /\ PyStr.last_space (_get_text_from_block block block_map) = false).
Proof.
  intros parts joined. unfold _get_text_from_block.
  rewrite text_parts_of_spec. fold parts. fold joined.
  split; [reflexivity|]. split.
  - intros p1 p2 -> H1 H2. now apply PyStrFacts.join_app.
  - apply PyStrFacts.strip_spec.
Qed.

(** ** Form fields *)

Lemma value_ids_loop_spec block_map value_text ids :
  value_ids_loop block_map value_text ids =
  match first_value_block block_map ids with
  | Some vb => _get_text_from_block vb block_map
  | None => value_text
  end.
Proof.
  induction ids as [|i ids IH]; simpl; [reflexivity|].
  destruct (block_map !! i) as [vb|]; [|exact IH].
  destruct (has_role "VALUE" vb); [reflexivity | exact IH].
Qed.

Lemma value_rels_loop_spec block_map value_text rels :
  value_rels_loop block_map value_text rels =
  match last (omap (fun relationship =>
                      if decide (Type_ relationship = "VALUE")
                      then first_value_block block_map (Ids relationship)
                      else None) rels) with
  | Some vb => _get_text_from_block vb block_map
  | None => value_text
  end.
Proof.
  unfold value_rels_loop. revert value_text.
  induction rels as [|r rels IH] using rev_ind; intros value_text; [reflexivity|].
  rewrite foldl_app, omap_app. simpl. rewrite IH.
  destruct (decide (Type_ r = "VALUE")) as [Hr|Hr]; simpl.
  - rewrite value_ids_loop_spec.
    destruct (first_value_block block_map (Ids r)) as [vb|]; simpl.
    + now rewrite last_snoc.
    + now rewrite List.app_nil_r.
  - now rewrite List.app_nil_r.
Qed.

(** The value of a KEY block is the text of the block that its last
    resolving VALUE relationship resolves to. *)
Lemma find_value_text_spec block_map kv_block :
  find_value_text block_map kv_block =
  match last (value_candidates block_map kv_block) with
  | Some vb => _get_text_from_block vb block_map
  | None => ""
  end.
Proof.
  unfold find_value_text, value_candidates.
  destruct (Relationships kv_block) as [rels|]; simpl; [|reflexivity].
  apply value_rels_loop_spec.
Qed.

Lemma first_value_block_none block_map ids :
  (forall id b, id ∈ ids -> block_map !! id = Some b -> has_role "VALUE" b = false) ->
  first_value_block block_map ids = None.
Proof.
  induction ids as [|i ids IH]; intros H; simpl; [reflexivity|].
  destruct (block_map !! i) as [vb|] eqn:Hi.
  - rewrite (H i vb) by (try apply list_elem_of_here; assumption).
    apply IH. intros id b Hin. apply H. now apply list_elem_of_further.
  - apply IH. intros id b Hin. apply H. now apply list_elem_of_further.
Qed.

Lemma value_candidates_nil block_map kv_block :
  (forall r, r ∈ get (Relationships kv_block) [] -> Type_ r = "VALUE" ->
     forall id b, id ∈ Ids r -> block_map !! id = Some b ->
       has_role "VALUE" b = false) ->
  value_candidates block_map kv_block = [].
Proof.
  unfold value_candidates.
  induction (get (Relationships kv_block) []) as [|r rels IH]; intros H; [reflexivity|].
  simpl. destruct (decide (Type_ r = "VALUE")) as [Hr|Hr].
  - rewrite first_value_block_none.
    + apply IH. intros r' Hin. apply H. now apply list_elem_of_further.
    + apply H; [apply list_elem_of_here | assumption].
  - apply IH. intros r' Hin. apply H. now apply list_elem_of_further.
Qed.

Lemma kv_step_spec block_map d kv_block :
  kv_step block_map d kv_block =
  match pair_of_key block_map kv_block with
  | Some (k, v) => dict_set k v d
  | None => d
  end.
Proof.
  unfold kv_step, pair_of_key.
  destruct (has_role "KEY" kv_block); [|reflexivity].
  now destruct (PyStr.truthy _ && PyStr.truthy _).
Qed.

Lemma extract_pairs_spec blocks key_value_blocks :
  _extract_key_value_pairs blocks key_value_blocks =
  foldl (fun d p => dict_set p.1 p.2 d) []
        (emitted_pairs (make_block_map blocks) key_value_blocks).
Proof.
  unfold _extract_key_value_pairs, emitted_pairs.
  generalize (@nil (string * string)) as d.
  induction key_value_blocks as [|kv kvs IH]; intros d; simpl; [reflexivity|].
  rewrite IH, kv_step_spec.
  now destruct (pair_of_key (make_block_map blocks) kv) as [[k v]|].
Qed.

Lemma pair_of_key_nonempty block_map kv_block k v :
  pair_of_key block_map kv_block = Some (k, v) -> k <> "" /\ v <> "".
Proof.
  unfold pair_of_key. destruct (has_role "KEY" kv_block); [|discriminate].
  destruct (PyStr.truthy _ && PyStr.truthy _) eqn:Ht; [|discriminate].
  intros [= <- <-]. apply andb_prop in Ht as [Hk Hv].
  split; now apply PyStrFacts.truthy_true.
Qed.

(** *** Lists *)

Lemma filter_all {A} (P : A -> Prop) `{forall x, Decision (P x)} (l : list A) :
  (forall x, x ∈ l -> P x) -> filter P l = l.
Proof.
  induction l as [|y l IH]; intros HP; [reflexivity|].
  rewrite filter_cons_True by (apply HP, list_elem_of_here).
  f_equal. apply IH. intros x Hx. apply HP. now apply list_elem_of_further.
Qed.

Lemma filter_ext_elem {A} (P Q : A -> Prop)
    `{forall x, Decision (P x)} `{forall x, Decision (Q x)} (l : list A) :
  (forall x, x ∈ l -> (P x <-> Q x)) -> filter P l = filter Q l.
Proof.
  induction l as [|y l IH]; intros HPQ; [reflexivity|].
  rewrite !filter_cons.
  rewrite IH by (intros x Hx; apply HPQ; now apply list_elem_of_further).
  pose proof (HPQ y (list_elem_of_here _ _)) as Hy.
  destruct (decide (P y)), (decide (Q y)); tauto.
Qed.

Lemma StronglySorted_weaken {A} (R R' : A -> A -> Prop) (l : list A) :
  (forall x y, R x y -> R' x y) -> StronglySorted R l -> StronglySorted R' l.
Proof.
  intros HR. induction 1 as [|x l Hl IH Hx]; constructor; [exact IH|].
  eapply Forall_impl; [exact Hx | apply HR].
Qed.

(** *** The dictionary *)

Lemma dict_get_set k v d k' :
  dict_get k' (dict_set k v d) = if decide (k = k') then Some v else dict_get k' d.
Proof.
  induction d as [|[k0 v0] d IH]; simpl.
  - destruct (decide (k = k')); reflexivity.
  - destruct (decide (k0 = k)) as [->|Hne]; simpl.
    + destruct (decide (k = k')); reflexivity.
    + rewrite IH. destruct (decide (k0 = k')) as [->|]; [|reflexivity].
      destruct (decide (k = k')); [congruence | reflexivity].
Qed.

Lemma dict_set_keys k v d :
  (dict_set k v d).*1 = if decide (k ∈ d.*1) then d.*1 else d.*1 ++ [k].
Proof.
  induction d as [|[k0 v0] d IH]; [reflexivity|].
  cbn [dict_set].
  destruct (decide (k0 = k)) as [->|Hne]; rewrite !fmap_cons; cbn [fst];
    [|rewrite IH]; repeat case_decide; try reflexivity; exfalso; set_solver.
Qed.

Lemma dict_set_fresh k v d : k ∉ d.*1 -> dict_set k v d = d ++ [(k, v)].
Proof.
  induction d as [|[k0 v0] d IH]; simpl; intros Hk; [reflexivity|].
  destruct (decide (k0 = k)) as [->|Hne].
  - exfalso. apply Hk. apply list_elem_of_here.
  - rewrite IH; [reflexivity|]. intros H. apply Hk. now apply list_elem_of_further.
Qed.

Lemma dict_set_elem p k v d : p ∈ dict_set k v d -> p = (k, v) \/ p ∈ d.
Proof.
  induction d as [|[k0 v0] d IH]; simpl.
  - intros H. apply list_elem_of_singleton in H. now left.
  - destruct (decide (k0 = k)) as [->|Hne]; intros H;
      apply elem_of_cons in H as [->|H].
    + now left.
    + right. now apply list_elem_of_further.
    + right. apply list_elem_of_here.
    + destruct (IH H) as [->|H']; [now left | right; now apply list_elem_of_further].
Qed.

Lemma dict_of_snoc l p : dict_of (l ++ [p]) = dict_set p.1 p.2 (dict_of l).
Proof. unfold dict_of. now rewrite foldl_app. Qed.

Lemma first_occurrences_elem (x : string) l : x ∈ first_occurrences l <-> x ∈ l.
Proof.
  induction l as [|y l IH]; simpl; [reflexivity|].
  rewrite !elem_of_cons, list_elem_of_filter, IH.
  destruct (decide (x = y)); naive_solver.
Qed.

Lemma first_occurrences_snoc l (x : string) :
  first_occurrences (l ++ [x]) =
  if decide (x ∈ l) then first_occurrences l else first_occurrences l ++ [x].
Proof.
  induction l as [|y l IH]; simpl.
  - reflexivity.
  - rewrite IH. destruct (decide (x = y)) as [->|Hne].
    + repeat case_decide; try (exfalso; set_solver); [reflexivity|].
      rewrite filter_app, filter_cons_False, filter_nil by (intros H'; now apply H').
      now rewrite List.app_nil_r.
    + repeat case_decide; try (exfalso; set_solver); [reflexivity|].
      rewrite filter_app, filter_cons_True, filter_nil by assumption.
      reflexivity.
Qed.

Lemma first_occurrences_NoDup l : NoDup (first_occurrences l).
Proof.
  induction l as [|y l IH]; simpl; [constructor|].
  constructor.
  - rewrite list_elem_of_filter. naive_solver.
  - now apply NoDup_filter.
Qed.

Lemma first_occurrences_id l : NoDup l -> first_occurrences l = l.
Proof.
  induction 1 as [|y l Hy Hl IH]; simpl; [reflexivity|].
  rewrite IH. f_equal. apply filter_all.
  intros z Hz ->. apply Hy. assumption.
Qed.

Lemma dict_of_keys l : (dict_of l).*1 = first_occurrences l.*1.
Proof.
  induction l as [|p l IH] using rev_ind; [reflexivity|].
  rewrite dict_of_snoc, dict_set_keys, fmap_app.
  change ([p].*1) with [p.1].
  rewrite first_occurrences_snoc, IH.
  repeat case_decide; try reflexivity;
    exfalso; rewrite first_occurrences_elem in *; tauto.
Qed.

Lemma dict_of_get l k :
  dict_get k (dict_of l) = snd <$> last (filter (fun p => p.1 = k) l).
Proof.
  induction l as [|p l IH] using rev_ind; [reflexivity|].
  rewrite dict_of_snoc, dict_get_set, filter_app, IH.
  destruct (decide (p.1 = k)) as [Hk|Hk].
  - rewrite filter_cons_True, filter_nil by assumption. now rewrite last_snoc.
  - rewrite filter_cons_False, filter_nil by assumption. now rewrite List.app_nil_r.
Qed.

Lemma dict_of_elem l p : p ∈ dict_of l -> p ∈ l.
Proof.
  induction l as [|q l IH] using rev_ind; [trivial|].
  rewrite dict_of_snoc. intros H. apply dict_set_elem in H as [->|H].
  - apply elem_of_app. right. destruct q. apply list_elem_of_here.
  - apply elem_of_app. left. now apply IH.
Qed.

Lemma dict_of_id l : NoDup l.*1 -> dict_of l = l.
Proof.
  induction l as [|p l IH] using rev_ind; [reflexivity|].
  rewrite fmap_app. change ([p].*1) with [p.1].
  intros Hnd. apply NoDup_app in Hnd as (Hl & Hp & _).
  rewrite dict_of_snoc, IH by assumption.
  rewrite dict_set_fresh; [now destruct p|].
  intros Hin. apply (Hp _ Hin). apply list_elem_of_here.
Qed.

(** *** The extractor *)

(** C2, as stated, fails: two KEY blocks named "Total", with the values
    "1" and "2", leave one entry, not two. *)
Lemma same_name_is_merged :
  let key_value_blocks := blocks_of_type "KEY_VALUE_SET" same_name in
  emitted_pairs (make_block_map same_name) key_value_blocks
    = [("Total", "1"); ("Total", "2")]
  /\ _extract_key_value_pairs same_name key_value_blocks = [("Total", "2")].
Proof. split; vm_compute; reflexivity. Qed.

(** C2, amended.  The extractor returns a mapping with one entry per
    distinct name, the names in the order in which each is first yielded
    by a KEY block of the input; the value of a name is the one of the
    last KEY block that yields it.  When the names are pairwise distinct
    the output is the sequence of pairs in the order of the KEY blocks. *)
Theorem extract_pairs_first_place_last_value (blocks key_value_blocks : list Block) :
  let emitted := emitted_pairs (make_block_map blocks) key_value_blocks in
  let out := _extract_key_value_pairs blocks key_value_blocks in
  NoDup out.*1
  /\ out.*1 = first_occurrences emitted.*1
  /\ (forall k, dict_get k out = snd <$> last (filter (fun p => p.1 = k) emitted))
  /\ (NoDup emitted.*1 -> out = emitted).
Proof.
  intros emitted out. subst out. rewrite extract_pairs_spec. fold emitted.
  fold (dict_of emitted). repeat split.
  - rewrite dict_of_keys. apply first_occurrences_NoDup.
  - apply dict_of_keys.
  - intros k. apply dict_of_get.
  - apply dict_of_id.
Qed.

Lemma extract_pairs_first_place_last_value_witness :
  _extract_key_value_pairs Sample.total_thanks
    (blocks_of_type "KEY_VALUE_SET" Sample.total_thanks)
  = [("Total", "$500.00")].
Proof.
  pose proof (extract_pairs_first_place_last_value Sample.total_thanks
                (blocks_of_type "KEY_VALUE_SET" Sample.total_thanks))
    as (_ & _ & _ & H).
  rewrite H.
  - vm_compute. reflexivity.
  - vm_compute. repeat constructor. intros Hin. inversion Hin.
Defined.

(** C4 fails on the code: of two VALUE relationships that both resolve,
    the later one gives the value; the [break] leaves the loop over the
    ids of one relationship only. *)
Theorem later_value_relationship_wins :
  _extract_key_value_pairs two_values (blocks_of_type "KEY_VALUE_SET" two_values)
  = [("Total", "second")].
Proof. vm_compute. reflexivity. Qed.

(** C5 fails on the code, by the defect of C4: the first VALUE
    relationship of the KEY block resolves to a VALUE block whose
    composed text is empty, so the pair is to be dropped; the loop over
    the relationships goes on to the second one and the pair is emitted
    with its text. *)
Theorem blank_first_value_is_not_dropped :
  let block_map := make_block_map blank_first_value in
  let kv_block :=
    Sample.key "k" "Total" [mkRel "VALUE" ["v1"]; mkRel "VALUE" ["v2"]] in
  head (value_candidates block_map kv_block) = Some (Sample.value "v1" "")
  /\ _get_text_from_block (Sample.value "v1" "") block_map = ""
  /\ _extract_key_value_pairs blank_first_value
       (blocks_of_type "KEY_VALUE_SET" blank_first_value)
     = [("Total", "x")].
Proof. vm_compute. repeat split. Qed.

(** X27.  As the code stands, a KEY block yields no pair, and leaves the
    mapping as it is, when none of its VALUE relationships resolves
    through the index to a block of role VALUE (an id the index does
    not know included), when its own composed text is empty, or when
    the composed text of the block its value is read from, the one of
    its last resolving VALUE relationship, is empty; and no entry of
    the output has an empty name or an empty value. *)
Theorem key_without_value_is_dropped (blocks key_value_blocks : list Block)
    (kv_block : Block) (d : dict) :
  let block_map := make_block_map blocks in
  (has_role "KEY" kv_block = true ->
   (forall r, r ∈ get (Relationships kv_block) [] -> Type_ r = "VALUE" ->
      forall id b, id ∈ Ids r -> block_map !! id = Some b ->
        has_role "VALUE" b = false)
   \/ _get_text_from_block kv_block block_map = ""
   \/ (exists vb, last (value_candidates block_map kv_block) = Some vb
                  /\ _get_text_from_block vb block_map = "") ->
   pair_of_key block_map kv_block = None /\ kv_step block_map d kv_block = d)
  /\ (forall k v, (k, v) ∈ _extract_key_value_pairs blocks key_value_blocks ->
        k <> "" /\ v <> "").
Proof.
  intros block_map. split.
  - intros Hkey Hcase.
    assert (pair_of_key block_map kv_block = None) as Hnone.
    { unfold pair_of_key. rewrite Hkey. cbv zeta.
      destruct Hcase as [Hno | [Hk | (vb & Hlast & Hv)]].
      - rewrite find_value_text_spec, value_candidates_nil by exact Hno.
        simpl. now rewrite andb_false_r.
      - now rewrite Hk.
      - rewrite find_value_text_spec, Hlast, Hv. simpl. now rewrite andb_false_r. }
    split; [exact Hnone|]. now rewrite kv_step_spec, Hnone.
  - intros k v Hin. rewrite extract_pairs_spec in Hin.
    apply dict_of_elem in Hin. apply list_elem_of_omap in Hin as (kv & _ & Hkv).
    now apply pair_of_key_nonempty in Hkv.
Qed.

Lemma key_without_value_is_dropped_witness :
  kv_step (make_block_map dangling_key) [("a", "b")]
    (Sample.key "k" "Total" [mkRel "VALUE" ["missing"]]) = [("a", "b")].
Proof.
  apply (key_without_value_is_dropped dangling_key dangling_key).
  - vm_compute. reflexivity.
  - left. intros r Hr _ id b Hid Hb.
    apply list_elem_of_singleton in Hr. subst r.
    apply list_elem_of_singleton in Hid. subst id.
    vm_compute in Hb. discriminate.
Defined.

(** ** Sorting *)

Section SortFacts.
Context {A K : Type} (lt : K -> K -> bool) (key : A -> K).

Hypothesis lt_asym : forall a b, lt a b = true -> lt b a = false.
Hypothesis le_trans :
  forall a b c, lt b a = false -> lt c b = false -> lt c a = false.

Lemma insert_perm (x : A) (l : list A) : PyList.insert lt key x l ≡ₚ x :: l.
Proof.
  induction l as [|y l IH]; simpl; [reflexivity|].
  destruct (lt (key y) (key x)); [|reflexivity].
  rewrite IH. apply Permutation_swap.
Qed.

Lemma sort_perm (l : list A) : PyList.sort lt key l ≡ₚ l.
Proof.
  induction l as [|x l IH]; simpl; [reflexivity|].
  now rewrite insert_perm, IH.
Qed.

Lemma insert_sorted (x : A) (l : list A) :
  StronglySorted (PyList.key_le lt key) l ->
  StronglySorted (PyList.key_le lt key) (PyList.insert lt key x l).
Proof.
  induction 1 as [|y l Hl IH Hy]; simpl.
  - repeat constructor.
  - destruct (lt (key y) (key x)) eqn:Hyx.
    + constructor; [exact IH|].
      rewrite insert_perm. constructor; [|exact Hy].
      unfold PyList.key_le. now apply lt_asym.
    + constructor; [now constructor|].
      constructor; [exact Hyx|].
      eapply Forall_impl; [exact Hy|].
      intros z Hz. unfold PyList.key_le in *. now apply (le_trans _ (key y)).
Qed.

Lemma sort_sorted (l : list A) :
  StronglySorted (PyList.key_le lt key) (PyList.sort lt key l).
Proof.
  induction l as [|x l IH]; simpl; [constructor | now apply insert_sorted].
Qed.

(** Inserting [x] does not move it past an element that [P] groups
    with it. *)
Lemma insert_filter (P : A -> Prop) `{forall x, Decision (P x)} (x : A) (l : list A) :
  (forall y, y ∈ l -> P y -> P x -> lt (key y) (key x) = false) ->
  filter P (PyList.insert lt key x l) = filter P (x :: l).
Proof.
  induction l as [|y l IH]; intros HP; simpl; [reflexivity|].
  destruct (lt (key y) (key x)) eqn:Hyx; [|reflexivity].
  rewrite filter_cons, IH, !filter_cons
    by (intros z Hz; apply HP; now apply list_elem_of_further).
  destruct (decide (P y)) as [Hy|]; [|reflexivity].
  destruct (decide (P x)) as [Hx|]; [|reflexivity].
  rewrite (HP y (list_elem_of_here _ _) Hy Hx) in Hyx. discriminate.
Qed.

(** Stability: the elements that [P] selects, none of which is smaller
    than another, keep their order. *)
Lemma sort_stable (P : A -> Prop) `{forall x, Decision (P x)} (l : list A) :
  (forall y z, y ∈ l -> z ∈ l -> P y -> P z -> lt (key y) (key z) = false) ->
  filter P (PyList.sort lt key l) = filter P l.
Proof.
  induction l as [|x l IH]; intros HP; simpl; [reflexivity|].
  rewrite insert_filter.
  - rewrite !filter_cons, IH; [reflexivity|].
    intros y z Hy Hz. apply HP; now apply list_elem_of_further.
  - intros y Hy. rewrite sort_perm in Hy.
    apply HP; [now apply list_elem_of_further | apply list_elem_of_here].
Qed.

End SortFacts.

(** ** Free text *)

Lemma Qltb_spec (x y : Q) : PyList.Qltb x y = true <-> (x < y)%Q.
Proof.
  unfold PyList.Qltb. rewrite negb_true_iff.
  destruct (Qle_bool y x) eqn:H.
  - apply Qle_bool_iff in H. split; [discriminate | intros; lra].
  - split; [|reflexivity]. intros _.
    destruct (Qlt_le_dec x y) as [|Hle]; [assumption|].
    apply Qle_bool_iff in Hle. congruence.
Qed.

Lemma lt_QQ_spec (a b : Q * Q) :
  PyList.lt_QQ a b = true <-> (a.1 < b.1 \/ (a.1 == b.1 /\ a.2 < b.2))%Q.
Proof.
  unfold PyList.lt_QQ.
  rewrite orb_true_iff, andb_true_iff, !Qltb_spec, Qeq_bool_iff. reflexivity.
Qed.

Lemma lt_QQ_false (a b : Q * Q) :
  PyList.lt_QQ a b = false <-> (b.1 < a.1 \/ (a.1 == b.1 /\ b.2 <= a.2))%Q.
Proof.
  rewrite <- not_true_iff_false, lt_QQ_spec. split.
  - intros H. destruct (Qlt_le_dec b.1 a.1); [now left|]. right.
    destruct (Qlt_le_dec a.1 b.1); [exfalso; apply H; now left|].
    split; [lra|].
    destruct (Qlt_le_dec a.2 b.2); [|assumption].
    exfalso. apply H. right. split; [lra | assumption].
  - intros H H'. lra.
Qed.

Lemma lt_QQ_asym (a b : Q * Q) :
  PyList.lt_QQ a b = true -> PyList.lt_QQ b a = false.
Proof. rewrite lt_QQ_spec, lt_QQ_false. intros; lra. Qed.

Lemma lt_QQ_le_trans (a b c : Q * Q) :
  PyList.lt_QQ b a = false -> PyList.lt_QQ c b = false -> PyList.lt_QQ c a = false.
Proof. rewrite !lt_QQ_false. intros; lra. Qed.

Lemma key_le_reading (x y : Block) :
  PyList.key_le PyList.lt_QQ reading_key x y <-> reading_le x y.
Proof.
  unfold PyList.key_le, reading_le. rewrite lt_QQ_false. simpl.
  split; (intros [H|[H1 H2]]; [left; exact H | right; split; lra]).
Qed.

Lemma text_lines_loop_spec (lines : list string) (text_blocks : list Block) :
  text_lines_loop lines text_blocks =
  lines ++ filter (fun t => t <> "") (trimmed_text <$> text_blocks).
Proof.
  unfold text_lines_loop. revert lines.
  induction text_blocks as [|b bs IH]; intros lines.
  - simpl. now rewrite List.app_nil_r.
  - cbn [foldl]. rewrite IH. rewrite fmap_cons, filter_cons. fold (trimmed_text b).
    destruct (PyStr.truthy (trimmed_text b)) eqn:Ht.
    + apply PyStrFacts.truthy_true in Ht.
      destruct (decide (trimmed_text b <> "")); [|contradiction].
      now rewrite <- List.app_assoc.
    + apply PyStrFacts.truthy_false in Ht.
      destruct (decide (trimmed_text b <> "")); [contradiction | reflexivity].
Qed.

(** C6.  The free text is the join, one per line, of the non-empty
    trimmed texts of the LINE blocks taken in sorted order; the sorted
    list is a rearrangement of the input, ascending in top and, at equal
    top, in left; blocks at the same coordinates keep their input order;
    and of two blocks the one with the smaller top comes first. *)
Theorem text_content_reading_order (blocks text_blocks : list Block) :
  let sorted := PyList.sort PyList.lt_QQ reading_key text_blocks in
  _extract_text_content blocks text_blocks
    = PyStr.join PyStr.nl (filter (fun t => t <> "") (trimmed_text <$> sorted))
  /\ sorted ≡ₚ text_blocks
  /\ StronglySorted reading_le sorted
  /\ (forall t l, filter (at_place t l) sorted = filter (at_place t l) text_blocks)
  /\ (forall b1 b2,
        (box_coord Top b2 < box_coord Top b1)%Q ->
        trimmed_text b1 <> "" -> trimmed_text b2 <> "" ->
        _extract_text_content blocks [b1; b2]
          = trimmed_text b2 +:+ PyStr.nl +:+ trimmed_text b1).
Proof.
  intros sorted. repeat split.
  - unfold _extract_text_content. now rewrite text_lines_loop_spec.
  - apply sort_perm.
  - apply (StronglySorted_weaken (PyList.key_le PyList.lt_QQ reading_key)).
    + intros x y. apply key_le_reading.
    + apply sort_sorted; [apply lt_QQ_asym | apply lt_QQ_le_trans].
  - intros t l. apply sort_stable.
    intros y z _ _ [Hy1 Hy2] [Hz1 Hz2]. apply lt_QQ_false. simpl. right. split; lra.
  - intros b1 b2 Hlt H1 H2.
    unfold _extract_text_content. rewrite text_lines_loop_spec.
    assert (PyList.sort PyList.lt_QQ reading_key [b1; b2] = [b2; b1]) as ->.
    { simpl. replace (PyList.lt_QQ (reading_key b2) (reading_key b1)) with true;
        [reflexivity|].
      symmetry. apply lt_QQ_spec. now left. }
    rewrite !fmap_cons, fmap_nil, !filter_cons, filter_nil.
    destruct (decide (trimmed_text b2 <> "")); [|contradiction].
    destruct (decide (trimmed_text b1 <> "")); [|contradiction].
    reflexivity.
Qed.

Lemma text_content_reading_order_witness :
  _extract_text_content two_lines two_lines = "upper" +:+ PyStr.nl +:+ "lower".
Proof.
  apply (text_content_reading_order two_lines two_lines).
  - vm_compute. reflexivity.
  - vm_compute. discriminate.
  - vm_compute. discriminate.
Defined.

(** ** Tables *)

Lemma norm_index_lt (len : nat) (i : Z) (n : nat) :
  PyList.norm_index len i = Some n -> (n < len)%nat.
Proof.
  unfold PyList.norm_index.
  destruct ((0 <=? i) && (i <? Z.of_nat len))%Z eqn:H1.
  - intros [= <-]. lia.
  - destruct ((- Z.of_nat len <=? i) && (i <? 0))%Z eqn:H2; [|discriminate].
    intros [= <-]. lia.
Qed.

Lemma norm_index_axis (len : nat) (k : Z) :
  (0 <= k < Z.of_nat len)%Z ->
  PyList.norm_index len (k - 1) = Some (axis_pos len k).
Proof.
  intros Hk. unfold PyList.norm_index, axis_pos.
  destruct (k =? 0)%Z eqn:Hk0.
  - apply Z.eqb_eq in Hk0. subst k.
    replace ((0 <=? 0 - 1) && (0 - 1 <? Z.of_nat len))%Z with false by lia.
    replace ((- Z.of_nat len <=? 0 - 1) && (0 - 1 <? 0))%Z with true by lia.
    f_equal. lia.
  - apply Z.eqb_neq in Hk0.
    replace ((0 <=? k - 1) && (k - 1 <? Z.of_nat len))%Z with true by lia.
    reflexivity.
Qed.

Lemma axis_pos_inj (len : nat) (k k' : Z) :
  (0 <= k < Z.of_nat len)%Z -> (0 <= k' < Z.of_nat len)%Z ->
  axis_pos len k = axis_pos len k' -> k = k'.
Proof.
  unfold axis_pos. intros Hk Hk'.
  destruct (k =? 0)%Z eqn:E, (k' =? 0)%Z eqn:E'; lia.
Qed.

Lemma grid_set_spec (g : grid) (R C : nat) (row col : Z) (v : string) (i j : nat) :
  grid_shape g R C ->
  PyList.norm_index R row = Some i -> PyList.norm_index C col = Some j ->
  exists g',
    grid_set g row col v = ok g' /\ grid_shape g' R C
    /\ forall i' j',
         grid_at g' i' j' =
         if decide (i' = i /\ j' = j) then Some (Some v) else grid_at g i' j'.
Proof.
  intros [Hlen Hrows] Hi Hj. unfold grid_set. rewrite Hlen, Hi.
  pose proof (norm_index_lt _ _ _ Hi) as Hilt.
  pose proof (norm_index_lt _ _ _ Hj) as Hjlt.
  destruct (lookup_lt_is_Some_2 g i) as [r Hr]; [lia|]. rewrite Hr.
  assert (length r = C) as Hrlen.
  { rewrite Forall_forall in Hrows. apply Hrows.
    eapply list_elem_of_lookup_2. exact Hr. }
  rewrite Hrlen, Hj. eexists. split; [reflexivity|]. split.
  - split; [now rewrite length_insert|].
    apply Forall_insert; [exact Hrows | now rewrite length_insert].
  - intros i' j'. unfold grid_at.
    destruct (decide (i' = i)) as [->|Hne].
    + rewrite list_lookup_insert_eq by lia. simpl.
      destruct (decide (j' = j)) as [->|Hne'].
      * rewrite list_lookup_insert_eq by lia.
        destruct (decide (i = i /\ j = j)); [reflexivity | tauto].
      * rewrite list_lookup_insert_ne by congruence. rewrite Hr. simpl.
        destruct (decide (i = i /\ j' = j)); [tauto | reflexivity].
    + rewrite list_lookup_insert_ne by congruence.
      destruct (decide (i' = i /\ j' = j)); [tauto | reflexivity].
Qed.

Lemma fill_grid_spec block_map (R C : nat) (cells : list Block) :
  forall g : grid,
    grid_shape g R C ->
    (forall c, c ∈ cells -> is_Some (cell_pos R C c)) ->
    exists g',
      fill_grid block_map g cells = ok g' /\ grid_shape g' R C
      /\ forall i j,
           grid_at g' i j =
           match last (filter (fun c => cell_pos R C c = Some (i, j)) cells) with
           | Some c => Some (Some (_get_text_from_block c block_map))
           | None => grid_at g i j
           end.
Proof.
  induction cells as [|c rest IH]; intros g Hg Hpos.
  - exists g. repeat split; try assumption; apply Hg.
  - destruct (Hpos c (list_elem_of_here _ _)) as [[i0 j0] Hc].
    assert (PyList.norm_index R (row_key c - 1) = Some i0
            /\ PyList.norm_index C (col_key c - 1) = Some j0) as [Hi Hj].
    { unfold cell_pos in Hc.
      destruct (PyList.norm_index R (row_key c - 1)); [|discriminate].
      destruct (PyList.norm_index C (col_key c - 1)); [|discriminate].
      now inversion Hc. }
    destruct (grid_set_spec g R C _ _ (_get_text_from_block c block_map) _ _ Hg Hi Hj)
      as (g1 & Hset & Hg1 & Hat1).
    destruct (IH g1 Hg1) as (g' & Hfill & Hg' & Hat').
    { intros x Hx. apply Hpos. now apply list_elem_of_further. }
    exists g'. split; [|split; [exact Hg'|]].
    + cbn [fill_grid]. unfold place_cell. rewrite Hset. exact Hfill.
    + intros i j. rewrite Hat', Hat1, filter_cons.
      destruct (decide (cell_pos R C c = Some (i, j))) as [Heq|Hne].
      * rewrite last_cons.
        destruct (last (filter _ rest)); [reflexivity|].
        rewrite Hc in Heq. inversion Heq; subst.
        destruct (decide (i = i /\ j = j)); [reflexivity | tauto].
      * destruct (last (filter _ rest)); [reflexivity|].
        destruct (decide (i = i0 /\ j = j0)) as [[-> ->]|]; [|reflexivity].
        congruence.
Qed.

Lemma foldl_max_spec (xs : list Z) :
  forall x, let m := foldl Z.max x xs in
    (m = x \/ m ∈ xs) /\ (x <= m)%Z /\ forall y, y ∈ xs -> (y <= m)%Z.
Proof.
  induction xs as [|z xs IH]; intros x; simpl.
  - split; [now left|]. split; [lia|]. intros y Hy. inversion Hy.
  - destruct (IH (Z.max x z)) as (Hm & Hx & Hall). split; [|split].
    + destruct Hm as [Hm|Hm].
      * rewrite Hm. destruct (Z.max_spec x z) as [[_ ->]|[_ ->]];
          [right; apply list_elem_of_here | now left].
      * right. now apply list_elem_of_further.
    + lia.
    + intros y Hy. apply elem_of_cons in Hy as [->|Hy]; [lia | now apply Hall].
Qed.

Lemma py_max_spec (l : list Z) :
  l <> [] ->
  exists m, PyList.max l = ok m /\ m ∈ l /\ forall y, y ∈ l -> (y <= m)%Z.
Proof.
  destruct l as [|x xs]; [congruence|]. intros _.
  destruct (foldl_max_spec xs x) as (Hm & Hx & Hall).
  exists (foldl Z.max x xs). split; [reflexivity|]. split.
  - destruct Hm as [->|Hm]; [apply list_elem_of_here | now apply list_elem_of_further].
  - intros y Hy. apply elem_of_cons in Hy as [->|Hy]; [assumption | now apply Hall].
Qed.

Lemma lt_ZZ_irrefl (a : Z * Z) : PyList.lt_ZZ a a = false.
Proof. unfold PyList.lt_ZZ. lia. Qed.

Lemma new_grid_shape (max_row max_col : Z) :
  grid_shape (new_grid max_row max_col)
    (Z.to_nat (max_row + 1)) (Z.to_nat (max_col + 1)).
Proof.
  unfold grid_shape, new_grid. split; [apply length_replicate|].
  apply Forall_replicate. apply length_replicate.
Qed.

Lemma new_grid_at (max_row max_col : Z) (i j : nat) :
  (i < Z.to_nat (max_row + 1))%nat -> (j < Z.to_nat (max_col + 1))%nat ->
  grid_at (new_grid max_row max_col) i j = Some None.
Proof.
  intros Hi Hj. unfold grid_at, new_grid.
  rewrite lookup_replicate_2 by exact Hi. simpl.
  now rewrite lookup_replicate_2 by exact Hj.
Qed.

(** The grid of a table whose cells have no negative index: no
    exception, the extent the code allocates, and at every place the
    text of the last cell, in the order of [table_cells], that is stored
    there. *)
Lemma table_grid_of_spec block_map (cells : list Block) :
  cells <> [] ->
  (forall c, c ∈ cells -> (0 <= row_key c)%Z /\ (0 <= col_key c)%Z) ->
  exists (g : grid) (max_row max_col : Z),
    table_grid_of block_map cells = ok g
    /\ PyList.max (map row_key (PyList.sort PyList.lt_ZZ cell_key cells)) = ok max_row
    /\ PyList.max (map col_key (PyList.sort PyList.lt_ZZ cell_key cells)) = ok max_col
    /\ max_row ∈ row_key <$> cells /\ max_col ∈ col_key <$> cells
    /\ (forall c, c ∈ cells ->
          (row_key c <= max_row)%Z /\ (col_key c <= max_col)%Z)
    /\ grid_shape g (Z.to_nat (max_row + 1)) (Z.to_nat (max_col + 1))
    /\ forall i j,
         grid_at g i j =
         match last (filter (fun c =>
                               cell_pos (Z.to_nat (max_row + 1))
                                        (Z.to_nat (max_col + 1)) c = Some (i, j))
                            cells) with
         | Some c => Some (Some (_get_text_from_block c block_map))
         | None => grid_at (new_grid max_row max_col) i j
         end.
Proof.
  intros Hne Hpos. unfold table_grid_of.
  set (sorted := PyList.sort PyList.lt_ZZ cell_key cells).
  assert (sorted ≡ₚ cells) as Hperm by apply sort_perm.
  assert (sorted <> []) as Hsne.
  { intros Hnil. rewrite Hnil in Hperm. apply Permutation_nil in Hperm. congruence. }
  destruct (py_max_spec (map row_key sorted)) as (max_row & Hmr & Hrin & Hrle).
  { destruct sorted; [congruence | discriminate]. }
  destruct (py_max_spec (map col_key sorted)) as (max_col & Hmc & Hcin & Hcle).
  { destruct sorted; [congruence | discriminate]. }
  rewrite Hmr, Hmc. cbn [ebind ok].
  change (map row_key sorted) with (row_key <$> sorted) in *.
  change (map col_key sorted) with (col_key <$> sorted) in *.
  rewrite Hperm in Hrin, Hcin.
  assert (forall c, c ∈ cells ->
            (row_key c <= max_row)%Z /\ (col_key c <= max_col)%Z) as Hle.
  { intros c Hc. rewrite <- Hperm in Hc. split.
    - apply Hrle. now apply list_elem_of_fmap_2.
    - apply Hcle. now apply list_elem_of_fmap_2. }
  set (R := Z.to_nat (max_row + 1)). set (C := Z.to_nat (max_col + 1)).
  assert (forall c, c ∈ cells ->
            cell_pos R C c = Some (axis_pos R (row_key c), axis_pos C (col_key c)))
    as Hcp.
  { intros c Hc. destruct (Hpos c Hc), (Hle c Hc). unfold cell_pos.
    rewrite !norm_index_axis by (subst R C; lia). reflexivity. }
  destruct (fill_grid_spec block_map R C sorted (new_grid max_row max_col))
    as (g & Hfill & Hg & Hat).
  { apply new_grid_shape. }
  { intros c Hc. rewrite Hperm in Hc. rewrite (Hcp c Hc). eauto. }
  exists g, max_row, max_col.
  split; [exact Hfill|]. split; [reflexivity|]. split; [reflexivity|].
  split; [exact Hrin|]. split; [exact Hcin|]. split; [exact Hle|].
  split; [exact Hg|].
  - intros i j. rewrite Hat. subst sorted. rewrite sort_stable; [reflexivity|].
    intros y z Hy Hz Py Pz. rewrite (Hcp y Hy) in Py. rewrite (Hcp z Hz) in Pz.
    destruct (Hpos y Hy), (Hle y Hy), (Hpos z Hz), (Hle z Hz).
    inversion Py as [[Hy1 Hy2]]. inversion Pz as [[Hz1 Hz2]].
    rewrite <- Hz1 in Hy1. rewrite <- Hz2 in Hy2.
    apply axis_pos_inj in Hy1; [|subst R; lia..].
    apply axis_pos_inj in Hy2; [|subst C; lia..].
    unfold cell_key. rewrite Hy1, Hy2. apply lt_ZZ_irrefl.
Qed.

Lemma cell_ids_loop_spec block_map cells ids :
  cell_ids_loop block_map cells ids =
  cells ++ flat_map
             (fun cell_id =>
                match block_map !! cell_id with
                | Some cell_block =>
                    if decide (BlockType cell_block = "CELL") then [cell_block] else []
                | None => []
                end) ids.
Proof.
  unfold cell_ids_loop. revert cells.
  induction ids as [|i ids IH]; intros cells; simpl.
  - now rewrite List.app_nil_r.
  - rewrite IH. destruct (block_map !! i) as [cb|]; [|reflexivity].
    destruct (decide (BlockType cb = "CELL")); [|reflexivity].
    now rewrite <- List.app_assoc.
Qed.

Lemma cell_rels_loop_spec block_map cells rels :
  foldl (fun cells relationship =>
           if decide (Type_ relationship = "CHILD")
           then cell_ids_loop block_map cells (Ids relationship)
           else cells) cells rels =
  cells ++ flat_map
             (fun relationship =>
                if decide (Type_ relationship = "CHILD") then
                  flat_map
                    (fun cell_id =>
                       match block_map !! cell_id with
                       | Some cell_block =>
                           if decide (BlockType cell_block = "CELL")
                           then [cell_block] else []
                       | None => []
                       end) (Ids relationship)
                else []) rels.
Proof.
  revert cells. induction rels as [|r rels IH]; intros cells; simpl.
  - now rewrite List.app_nil_r.
  - rewrite IH. destruct (decide (Type_ r = "CHILD")); [|reflexivity].
    rewrite cell_ids_loop_spec. now rewrite <- List.app_assoc.
Qed.

(** [table_cells] lists the resolved cells in relationship order. *)
Lemma resolve_cells_spec block_map table_block :
  resolve_cells block_map table_block = child_cells block_map table_block.
Proof.
  unfold resolve_cells, child_cells.
  destruct (Relationships table_block) as [rels|]; simpl; [|reflexivity].
  now rewrite cell_rels_loop_spec.
Qed.

Lemma last_filter_elem {A} (P : A -> Prop) `{forall x, Decision (P x)}
    (l : list A) (x : A) :
  x ∈ l -> P x -> exists y, last (filter P l) = Some y /\ y ∈ l /\ P y.
Proof.
  intros Hx HP.
  destruct (last (filter P l)) as [y|] eqn:Hlast.
  - exists y. split; [reflexivity|].
    apply last_Some_elem_of in Hlast. apply list_elem_of_filter in Hlast. tauto.
  - apply last_None in Hlast.
    assert (x ∈ filter P l) as Hin by (apply list_elem_of_filter; tauto).
    rewrite Hlast in Hin. inversion Hin.
Qed.

(** Under the hypotheses of [table_grid_of_spec], the place of a cell
    holds the text of the last cell of [table_cells] with its key. *)
Lemma table_grid_of_cell block_map (cells : list Block) :
  cells <> [] ->
  (forall c, c ∈ cells -> (0 <= row_key c)%Z /\ (0 <= col_key c)%Z) ->
  exists (g : grid) (max_row max_col : Z),
    let R := Z.to_nat (max_row + 1) in
    let C := Z.to_nat (max_col + 1) in
    table_grid_of block_map cells = ok g
    /\ PyList.max (map row_key (PyList.sort PyList.lt_ZZ cell_key cells)) = ok max_row
    /\ PyList.max (map col_key (PyList.sort PyList.lt_ZZ cell_key cells)) = ok max_col
    /\ grid_shape g R C
    /\ forall c, c ∈ cells ->
         PyList.norm_index R (row_key c - 1) = Some (axis_pos R (row_key c))
         /\ PyList.norm_index C (col_key c - 1) = Some (axis_pos C (col_key c))
         /\ (row_key c = 0%Z -> (0 < R)%nat /\ axis_pos R (row_key c) = (R - 1)%nat)
         /\ (col_key c = 0%Z -> (0 < C)%nat /\ axis_pos C (col_key c) = (C - 1)%nat)
         /\ exists c',
              last (filter (same_key c) cells) = Some c'
              /\ grid_at g (axis_pos R (row_key c)) (axis_pos C (col_key c))
                 = Some (Some (_get_text_from_block c' block_map)).
Proof.
  intros Hne Hpos.
  destruct (table_grid_of_spec block_map cells Hne Hpos)
    as (g & max_row & max_col & Hok & Hmr & Hmc & Hrin & Hcin & Hle & Hg & Hat).
  exists g, max_row, max_col. intros R C. subst R C.
  set (R := Z.to_nat (max_row + 1)) in *. set (C := Z.to_nat (max_col + 1)) in *.
  split; [exact Hok|]. split; [exact Hmr|]. split; [exact Hmc|]. split; [exact Hg|].
  assert (forall c, c ∈ cells ->
            (0 <= row_key c < Z.of_nat R)%Z /\ (0 <= col_key c < Z.of_nat C)%Z)
    as Hrange.
  { intros c Hc. destruct (Hpos c Hc), (Hle c Hc). subst R C. lia. }
  intros c Hc. destruct (Hrange c Hc) as [Hr Hcl].
  split; [now apply norm_index_axis|]. split; [now apply norm_index_axis|].
  split; [intros H0; unfold axis_pos; rewrite H0; simpl; lia|].
  split; [intros H0; unfold axis_pos; rewrite H0; simpl; lia|].
  destruct (last_filter_elem (same_key c) cells c Hc eq_refl) as (c' & Hlast & _ & _).
  exists c'. split; [exact Hlast|]. rewrite Hat.
  rewrite (filter_ext_elem _ (same_key c)).
  - now rewrite Hlast.
  - intros x Hx. destruct (Hrange x Hx) as [Hxr Hxc]. unfold cell_pos, same_key, cell_key.
    rewrite !norm_index_axis by assumption. split.
    + intros [= H1 H2]. apply axis_pos_inj in H1; [|assumption..].
      apply axis_pos_inj in H2; [|assumption..]. congruence.
    + intros [= H1 H2]. now rewrite H1, H2.
Qed.

(** C1 fails on the code: for the table of the round-trip scenario,
    rows 1..2 and columns 1..2, the grid has 3 rows of 3 entries and
    the rendering has 4 lines of 3 fields each, where the claim has a
    grid of 2 by 2 and 3 lines of 2 fields: the grid is allocated with
    [max_row + 1] rows and [max_col + 1] columns although the indices
    count from 1. *)
Theorem table_has_one_row_and_column_too_many :
  let block_map := make_block_map Sample.item_qty in
  let table_block := Sample.table "t" ["c11"; "c12"; "c21"; "c22"] in
  table_grid_of block_map (resolve_cells block_map table_block)
    = ok [ [Some "Item"; Some "Qty"; None];
           [Some "Widget"; Some "3"; None];
           [None; None; None] ]
  /\ _extract_table_content Sample.item_qty table_block
       (blocks_of_type "CELL" Sample.item_qty)
     = ok (PyStr.join PyStr.nl
             [ "| Item | Qty |  |"; "| --- | --- | --- |";
               "| Widget | 3 |  |"; "|  |  |  |" ]).
Proof. split; vm_compute; reflexivity. Qed.

(** C10.  [table_cells] lists the resolved cells in the order of the
    CHILD relationships; when no index is negative the grid is built
    without exception, and the place of every cell holds one text, the
    composed text of the last cell of [table_cells] with the same
    (RowIndex, ColumnIndex). *)
Theorem later_cell_overwrites (blocks : list Block) (table_block : Block) :
  let block_map := make_block_map blocks in
  let table_cells := resolve_cells block_map table_block in
  table_cells = child_cells block_map table_block
  /\ (table_cells <> [] ->
      (forall c, c ∈ table_cells -> (0 <= row_key c)%Z /\ (0 <= col_key c)%Z) ->
      exists (g : grid) (R C : nat),
        table_grid_of block_map table_cells = ok g
        /\ grid_shape g R C
        /\ forall c, c ∈ table_cells ->
             exists c',
               last (filter (same_key c) table_cells) = Some c'
               /\ grid_at g (axis_pos R (row_key c)) (axis_pos C (col_key c))
                  = Some (Some (_get_text_from_block c' block_map))).
Proof.
  intros block_map table_cells. split; [apply resolve_cells_spec|].
  intros Hne Hpos.
  destruct (table_grid_of_cell block_map table_cells Hne Hpos)
    as (g & max_row & max_col & Hok & _ & _ & Hg & Hcells).
  exists g, (Z.to_nat (max_row + 1)), (Z.to_nat (max_col + 1)).
  split; [exact Hok|]. split; [exact Hg|].
  intros c Hc. destruct (Hcells c Hc) as (_ & _ & _ & _ & Hlast). exact Hlast.
Qed.

Ltac concrete_cells H :=
  vm_compute in H;
  repeat (apply elem_of_cons in H as [->|H]);
  [.. | inversion H]; vm_compute; split; discriminate.

Lemma later_cell_overwrites_witness :
  let block_map := make_block_map twice_11 in
  let table_cells := resolve_cells block_map (Sample.table "t" ["a"; "b"; "c"]) in
  exists (g : grid) (R C : nat),
    table_grid_of block_map table_cells = ok g
    /\ grid_shape g R C
    /\ forall c, c ∈ table_cells ->
         exists c',
           last (filter (same_key c) table_cells) = Some c'
           /\ grid_at g (axis_pos R (row_key c)) (axis_pos C (col_key c))
              = Some (Some (_get_text_from_block c' block_map)).
Proof.
  apply (later_cell_overwrites twice_11 (Sample.table "t" ["a"; "b"; "c"])).
  - vm_compute. discriminate.
  - intros c Hc. concrete_cells Hc.
Defined.

(** The grid of the table with two cells at row 1, column 1. *)
Example twice_11_grid :
  table_grid_of (make_block_map twice_11)
    (resolve_cells (make_block_map twice_11) (Sample.table "t" ["a"; "b"; "c"]))
  = ok [ [Some "new"; Some "x"; None]; [None; None; None] ].
Proof. vm_compute. reflexivity. Qed.

(** The extent the code allocates has room for every cell whose own
    indices are not negative, whatever the other cells are. *)
Lemma place_cell_in_allocated block_map (cells : list Block) (cell : Block) :
  cell ∈ cells ->
  (0 <= row_key cell)%Z -> (0 <= col_key cell)%Z ->
  exists max_row max_col : Z,
    let R := Z.to_nat (max_row + 1) in
    let C := Z.to_nat (max_col + 1) in
    PyList.max (map row_key (PyList.sort PyList.lt_ZZ cell_key cells)) = ok max_row
    /\ PyList.max (map col_key (PyList.sort PyList.lt_ZZ cell_key cells)) = ok max_col
    /\ (0 <= row_key cell < Z.of_nat R)%Z /\ (0 <= col_key cell < Z.of_nat C)%Z
    /\ forall g0 : grid,
         grid_shape g0 R C ->
         exists g1,
           place_cell block_map g0 cell = ok g1 /\ grid_shape g1 R C
           /\ grid_at g1 (axis_pos R (row_key cell)) (axis_pos C (col_key cell))
              = Some (Some (_get_text_from_block cell block_map)).
Proof.
  intros Hin Hr Hc.
  set (sorted := PyList.sort PyList.lt_ZZ cell_key cells).
  assert (cell ∈ sorted) as Hs by (subst sorted; now rewrite sort_perm).
  destruct (py_max_spec (map row_key sorted)) as (max_row & Hmr & _ & Hrle).
  { destruct sorted; [inversion Hs | discriminate]. }
  destruct (py_max_spec (map col_key sorted)) as (max_col & Hmc & _ & Hcle).
  { destruct sorted; [inversion Hs | discriminate]. }
  exists max_row, max_col. intros R C.
  assert (row_key cell <= max_row)%Z
    by (apply Hrle; change (row_key cell ∈ row_key <$> sorted);
        now apply list_elem_of_fmap_2).
  assert (col_key cell <= max_col)%Z
    by (apply Hcle; change (col_key cell ∈ col_key <$> sorted);
        now apply list_elem_of_fmap_2).
  split; [exact Hmr|]. split; [exact Hmc|].
  assert ((0 <= row_key cell < Z.of_nat R)%Z) as HR by (subst R; lia).
  assert ((0 <= col_key cell < Z.of_nat C)%Z) as HC by (subst C; lia).
  split; [exact HR|]. split; [exact HC|].
  intros g0 Hg0.
  destruct (grid_set_spec g0 R C (row_key cell - 1) (col_key cell - 1)
              (_get_text_from_block cell block_map)
              (axis_pos R (row_key cell)) (axis_pos C (col_key cell)) Hg0)
    as (g1 & Hset & Hg1 & Hat); [now apply norm_index_axis..|].
  exists g1. split; [exact Hset|]. split; [exact Hg1|].
  rewrite Hat. destruct (decide _); [reflexivity | tauto].
Qed.

(** C9.  A resolved CELL child without a RowIndex (ColumnIndex) has the
    index 0 and the coordinate -1; in the grid the code allocates this
    is the last row (column), the assignment raises nothing and stores
    the text of the cell there.  When no cell of the table has a
    negative index, the whole grid is built without exception and that
    place holds the text of the last cell of [table_cells] with the key
    of the cell. *)
Theorem missing_index_lands_last (block_map : gmap string Block)
    (table_cells : list Block) (cell : Block) :
  cell ∈ table_cells ->
  RowIndex cell = None \/ ColumnIndex cell = None ->
  (0 <= row_key cell)%Z -> (0 <= col_key cell)%Z ->
  exists max_row max_col : Z,
    let R := Z.to_nat (max_row + 1) in
    let C := Z.to_nat (max_col + 1) in
    let i := axis_pos R (row_key cell) in
    let j := axis_pos C (col_key cell) in
    PyList.max (map row_key (PyList.sort PyList.lt_ZZ cell_key table_cells)) = ok max_row
    /\ PyList.max (map col_key (PyList.sort PyList.lt_ZZ cell_key table_cells)) = ok max_col
    /\ PyList.norm_index R (row_key cell - 1) = Some i
    /\ PyList.norm_index C (col_key cell - 1) = Some j
    /\ (RowIndex cell = None ->
        (row_key cell - 1 = -1)%Z /\ (0 < R)%nat /\ i = (R - 1)%nat)
    /\ (ColumnIndex cell = None ->
        (col_key cell - 1 = -1)%Z /\ (0 < C)%nat /\ j = (C - 1)%nat)
    /\ (forall g0 : grid,
          grid_shape g0 R C ->
          exists g1,
            place_cell block_map g0 cell = ok g1
            /\ grid_at g1 i j = Some (Some (_get_text_from_block cell block_map)))
    /\ ((forall c, c ∈ table_cells -> (0 <= row_key c)%Z /\ (0 <= col_key c)%Z) ->
        exists (g : grid) (c' : Block),
          table_grid_of block_map table_cells = ok g
          /\ grid_shape g R C
          /\ last (filter (same_key cell) table_cells) = Some c'
          /\ grid_at g i j = Some (Some (_get_text_from_block c' block_map))).
Proof.
  intros Hin _ Hr Hc.
  destruct (place_cell_in_allocated block_map table_cells cell Hin Hr Hc)
    as (max_row & max_col & Hmr & Hmc & HR & HC & Hplace).
  exists max_row, max_col. intros R C i j.
  split; [exact Hmr|]. split; [exact Hmc|].
  split; [now apply norm_index_axis|]. split; [now apply norm_index_axis|].
  split; [|split; [|split]].
  - intros Hnone.
    assert (row_key cell = 0%Z) as H0 by (unfold row_key; now rewrite Hnone).
    split; [lia|]. split; [lia|]. subst i. unfold axis_pos. now rewrite H0.
  - intros Hnone.
    assert (col_key cell = 0%Z) as H0 by (unfold col_key; now rewrite Hnone).
    split; [lia|]. split; [lia|]. subst j. unfold axis_pos. now rewrite H0.
  - intros g0 Hg0. destruct (Hplace g0 Hg0) as (g1 & H1 & _ & H2). eauto.
  - intros Hall.
    assert (table_cells <> []) as Hne by (intros ->; inversion Hin).
    destruct (table_grid_of_cell block_map table_cells Hne Hall)
      as (g & mr & mc & Hok & Hmr' & Hmc' & Hg & Hcells).
    rewrite Hmr in Hmr'. rewrite Hmc in Hmc'.
    injection Hmr' as <-. injection Hmc' as <-.
    destruct (Hcells cell Hin) as (_ & _ & _ & _ & c' & Hlast & Hat).
    exists g, c'. repeat split; try assumption; apply Hg.
Qed.

Lemma missing_index_lands_last_witness :
  let block_map := make_block_map no_index in
  let table_cells := resolve_cells block_map (Sample.table "t" ["c11"; "c12"; "s"]) in
  let cell := Sample.cell "s" None None "stray" in
  exists (g : grid) (c' : Block) (i j : nat),
    table_grid_of block_map table_cells = ok g
    /\ last (filter (same_key cell) table_cells) = Some c'
    /\ grid_at g i j = Some (Some (_get_text_from_block c' block_map)).
Proof.
  intros block_map table_cells cell.
  destruct (missing_index_lands_last block_map table_cells cell)
    as (max_row & max_col & _ & _ & _ & _ & _ & _ & _ & Hall).
  - vm_compute. do 2 apply list_elem_of_further. apply list_elem_of_here.
  - now left.
  - vm_compute. discriminate.
  - vm_compute. discriminate.
  - destruct Hall as (g & c' & Hok & _ & Hlast & Hat).
    + intros c Hc. concrete_cells Hc.
    + exists g, c'. eauto.
Defined.

(** The table with a cell that has neither index: the text goes to the
    last row and the last column. *)
Example no_index_grid :
  let block_map := make_block_map no_index in
  table_grid_of block_map (resolve_cells block_map (Sample.table "t" ["c11"; "c12"; "s"]))
    = ok [ [Some "Item"; Some "Qty"; None]; [None; None; Some "stray"] ]
  /\ _extract_table_content no_index (Sample.table "t" ["c11"; "c12"; "s"]) []
     = ok (PyStr.join PyStr.nl
             [ "| Item | Qty |  |"; "| --- | --- | --- |"; "|  |  | stray |" ]).
Proof. split; vm_compute; reflexivity. Qed.

Lemma markdown_loop_length (rows : grid) :
  forall (i : nat) (acc : list string),
    length (markdown_loop i rows acc)
    = (length acc + length rows
       + (if (i =? 0)%nat && nonempty rows then 1 else 0))%nat.
Proof.
  induction rows as [|row rows IH]; intros i acc; simpl.
  - rewrite andb_false_r. lia.
  - rewrite IH. destruct i; simpl; rewrite ?length_app; simpl; lia.
Qed.

Lemma markdown_loop_fields (C : nat) (rows : grid) :
  Forall (fun r => length r = C) rows ->
  forall (i : nat) (acc : list string),
    Forall (fun line => exists fields,
                length fields = C /\ line = markdown_line fields) acc ->
    Forall (fun line => exists fields,
                length fields = C /\ line = markdown_line fields)
           (markdown_loop i rows acc).
Proof.
  induction 1 as [|row rows Hrow Hrows IH]; intros i acc Hacc; simpl; [exact Hacc|].
  apply IH. destruct (i =? 0)%nat.
  - apply Forall_app. split; [apply Forall_app; split; [exact Hacc|]|].
    + constructor; [|constructor].
      exists (map cell_or_empty row). now rewrite length_map.
    + constructor; [|constructor].
      exists (replicate (length (map cell_or_empty row)) "---").
      now rewrite length_replicate, length_map.
  - apply Forall_app. split; [exact Hacc|].
    constructor; [|constructor].
    exists (map cell_or_empty row). now rewrite length_map.
Qed.

(** The rendering of a table whose cells have no negative index: the
    grid has [max_row + 1] rows of [max_col + 1] entries, the rendering
    has [max_row + 2] lines, and every line is made of [max_col + 1]
    fields. *)
Lemma rendered_table_extent (blocks : list Block) (table_block : Block)
    (cell_blocks : list Block) :
  let block_map := make_block_map blocks in
  let table_cells := resolve_cells block_map table_block in
  table_cells <> [] ->
  (forall c, c ∈ table_cells -> (0 <= row_key c)%Z /\ (0 <= col_key c)%Z) ->
  exists (g : grid) (max_row max_col : Z),
    table_grid_of block_map table_cells = ok g
    /\ max_row ∈ row_key <$> table_cells /\ max_col ∈ col_key <$> table_cells
    /\ (forall c, c ∈ table_cells ->
          (row_key c <= max_row)%Z /\ (col_key c <= max_col)%Z)
    /\ grid_shape g (Z.to_nat (max_row + 1)) (Z.to_nat (max_col + 1))
    /\ _extract_table_content blocks table_block cell_blocks
       = ok (PyStr.join PyStr.nl (markdown_table_of g))
    /\ length (markdown_table_of g) = Z.to_nat (max_row + 2)
    /\ Forall (fun line => exists fields,
                 length fields = Z.to_nat (max_col + 1)
                 /\ line = markdown_line fields) (markdown_table_of g).
Proof.
  intros block_map table_cells Hne Hpos.
  destruct (table_grid_of_spec block_map table_cells Hne Hpos)
    as (g & max_row & max_col & Hok & _ & _ & Hrin & Hcin & Hle & Hg & _).
  exists g, max_row, max_col.
  split; [exact Hok|]. split; [exact Hrin|]. split; [exact Hcin|].
  split; [exact Hle|]. split; [exact Hg|].
  assert ((0 <= max_row)%Z /\ (0 <= max_col)%Z) as [Hr0 Hc0].
  { apply list_elem_of_fmap in Hrin as (cr & -> & Hcr).
    apply list_elem_of_fmap in Hcin as (cc & -> & Hcc).
    split; [apply (Hpos cr Hcr) | apply (Hpos cc Hcc)]. }
  destruct Hg as [Hlen Hrows].
  destruct g as [|row g]; [simpl in Hlen; lia|].
  assert (length row = Z.to_nat (max_col + 1)) as Hrow by (now inversion Hrows).
  destruct row as [|x row]; [simpl in Hrow; lia|].
  split; [|split].
  - unfold _extract_table_content. cbv zeta. fold block_map. fold table_cells.
    destruct table_cells; [congruence|]. now rewrite Hok.
  - unfold markdown_table_of. rewrite markdown_loop_length. simpl in *. lia.
  - unfold markdown_table_of. apply markdown_loop_fields; [exact Hrows | constructor].
Qed.

(** ** Report *)

Lemma tables_loop_acc blocks cell_blocks (result : list string) table_blocks :
  tables_loop blocks cell_blocks result table_blocks =
  do contents <- tables_loop blocks cell_blocks [] table_blocks;
  ok (result ++ contents).
Proof.
  revert result. induction table_blocks as [|t ts IH]; intros result; simpl.
  - now rewrite List.app_nil_r.
  - destruct (_extract_table_content blocks t cell_blocks) as [e|content]; simpl;
      [reflexivity|].
    rewrite IH. rewrite (IH (if PyStr.truthy content then _ else _)).
    destruct (tables_loop blocks cell_blocks [] ts) as [e|contents]; simpl;
      [reflexivity|].
    destruct (PyStr.truthy content); simpl; [|reflexivity].
    now rewrite <- List.app_assoc.
Qed.

Lemma report_lines_sections (blocks : list Block) (doc_type : string) :
  report_lines blocks doc_type =
  do tables <- tables_section blocks;
  ok ([report_header doc_type] ++ kv_section blocks ++ tables ++ text_section blocks).
Proof.
  unfold report_lines, tables_section, kv_section, text_section, report_header.
  cbv zeta.
  destruct (nonempty (blocks_of_type "TABLE" blocks)).
  - rewrite tables_loop_acc.
    destruct (tables_loop blocks _ [] _) as [e|contents]; simpl; [reflexivity|].
    destruct (nonempty (blocks_of_type "KEY_VALUE_SET" blocks)),
             (nonempty (blocks_of_type "LINE" blocks));
      simpl; rewrite <- ?List.app_assoc; simpl; rewrite ?List.app_nil_r;
      rewrite <- ?List.app_assoc; reflexivity.
  - simpl.
    destruct (nonempty (blocks_of_type "KEY_VALUE_SET" blocks)),
             (nonempty (blocks_of_type "LINE" blocks));
      simpl; rewrite <- ?List.app_assoc; simpl; rewrite ?List.app_nil_r;
      reflexivity.
Qed.

Lemma extract_table_content_ok (blocks : list Block) (table_block : Block)
    (cell_blocks : list Block) :
  (forall c, c ∈ resolve_cells (make_block_map blocks) table_block ->
     (0 <= row_key c)%Z /\ (0 <= col_key c)%Z) ->
  exists s, _extract_table_content blocks table_block cell_blocks = ok s.
Proof.
  intros Hpos. unfold _extract_table_content. cbv zeta.
  destruct (resolve_cells (make_block_map blocks) table_block) as [|c cells] eqn:Hc;
    [eauto|].
  destruct (table_grid_of_spec (make_block_map blocks) (c :: cells))
    as (g & _ & _ & Hok & _); [discriminate | exact Hpos |].
  rewrite Hok. simpl. destruct g as [|[|x r] g]; eauto.
Qed.

Lemma tables_loop_ok (blocks cell_blocks : list Block) (table_blocks : list Block) :
  (forall t, t ∈ table_blocks ->
     exists s, _extract_table_content blocks t cell_blocks = ok s) ->
  forall result, exists lines,
    tables_loop blocks cell_blocks result table_blocks = ok lines.
Proof.
  induction table_blocks as [|t ts IH]; intros Hok result; simpl; [eauto|].
  destruct (Hok t (list_elem_of_here _ _)) as [s ->]. simpl.
  apply IH. intros t' Ht'. apply Hok. now apply list_elem_of_further.
Qed.

Lemma tables_section_ok (blocks : list Block) :
  indices_not_negative blocks -> exists tables, tables_section blocks = ok tables.
Proof.
  intros Hpos. unfold tables_section. cbv zeta.
  destruct (nonempty (blocks_of_type "TABLE" blocks)); [|eauto].
  destruct (tables_loop_ok blocks (blocks_of_type "CELL" blocks)
              (blocks_of_type "TABLE" blocks)) with (result := @nil string)
    as [lines ->].
  - intros t Ht. apply extract_table_content_ok. intros c Hc. now apply (Hpos t).
  - simpl. eauto.
Qed.

Lemma nonempty_false {A} (l : list A) : nonempty l = false <-> l = [].
Proof. destruct l; simpl; split; congruence. Qed.

Lemma startswith_app (p s : string) : PyStr.startswith p (p +:+ s) = true.
Proof.
  induction p as [|c p IH]; [reflexivity|].
  rewrite PyStrFacts.app_cons. simpl. now rewrite Ascii.eqb_refl.
Qed.

Lemma contains_unfold (sub s : string) :
  PyStr.contains sub s =
  PyStr.startswith sub s
  || match s with EmptyString => false | String _ s' => PyStr.contains sub s' end.
Proof. destruct s; reflexivity. Qed.

Lemma contains_app (sub pre post : string) :
  PyStr.contains sub (pre +:+ sub +:+ post) = true.
Proof.
  induction pre as [|c pre IH].
  - rewrite PyStrFacts.app_nil_l, contains_unfold, startswith_app. reflexivity.
  - rewrite PyStrFacts.app_cons, contains_unfold, IH. apply orb_true_r.
Qed.

Lemma join_middle (sep h : string) (l1 l2 : list string) :
  exists pre post, PyStr.join sep (l1 ++ h :: l2) = pre +:+ h +:+ post.
Proof.
  induction l1 as [|x l1 (pre & post & IH)].
  - destruct l2 as [|y l2].
    + exists "", "". simpl. now rewrite PyStrFacts.app_nil_r.
    + exists "", (sep +:+ PyStr.join sep (y :: l2)). reflexivity.
  - exists (x +:+ sep +:+ pre), post.
    change ((x :: l1) ++ h :: l2) with (x :: (l1 ++ h :: l2)).
    rewrite PyStrFacts.join_cons by (destruct l1; discriminate).
    rewrite IH. now rewrite !PyStrFacts.app_assoc.
Qed.

Lemma contains_join (sep h : string) (l : list string) :
  h ∈ l -> PyStr.contains h (PyStr.join sep l) = true.
Proof.
  intros Hin. apply list_elem_of_split in Hin as (l1 & l2 & ->).
  destruct (join_middle sep h l1 l2) as (pre & post & ->). apply contains_app.
Qed.

(** C3, as stated, fails: nothing is extracted from the collection
    [nothing_to_extract], and its report has the three subsection
    headers all the same. *)
Lemma bare_headers_are_emitted :
  let blocks := nothing_to_extract in
  _extract_key_value_pairs blocks (blocks_of_type "KEY_VALUE_SET" blocks) = []
  /\ _extract_table_content blocks (Sample.table "t" []) (blocks_of_type "CELL" blocks)
     = ok ""
  /\ _extract_text_content blocks (blocks_of_type "LINE" blocks) = ""
  /\ _process_textract_response blocks "INVOICE"
     = ok (PyStr.join PyStr.nl
             [ "## INVOICE Document Analysis" +:+ PyStr.nl;
               "### Key-Value Pairs (Forms)"; ""; "";
               "### Tables"; "";
               "### Text Content"; ""; "" ]).
Proof. repeat split; vm_compute; reflexivity. Qed.

(** C3, amended.  The report has the "Key-Value Pairs" subsection if and
    only if the collection has a KEY_VALUE_SET block, the "Tables"
    subsection if and only if it has a TABLE block, and the "Text
    Content" subsection if and only if it has a LINE block; a subsection
    is the header, a blank line and whatever is extracted, and without a
    block of the type nothing of the subsection is emitted.  The report
    is the header line and the three subsections in this order, and it
    is produced whenever no cell index is negative. *)
Theorem subsections_follow_block_types (blocks : list Block) (doc_type : string) :
  (kv_section blocks = [] <-> blocks_of_type "KEY_VALUE_SET" blocks = [])
  /\ (blocks_of_type "KEY_VALUE_SET" blocks <> [] ->
      kv_section blocks
      = ["### Key-Value Pairs (Forms)"; ""]
        ++ pair_lines (_extract_key_value_pairs blocks
                         (blocks_of_type "KEY_VALUE_SET" blocks)) ++ [""])
  /\ (forall tables, tables_section blocks = ok tables ->
        (tables = [] <-> blocks_of_type "TABLE" blocks = [])
        /\ (blocks_of_type "TABLE" blocks <> [] ->
            exists contents, tables = ["### Tables"; ""] ++ contents))
  /\ (text_section blocks = [] <-> blocks_of_type "LINE" blocks = [])
  /\ (blocks_of_type "LINE" blocks <> [] ->
      text_section blocks
      = ["### Text Content"; "";
         _extract_text_content blocks (blocks_of_type "LINE" blocks)])
  /\ (forall report, _process_textract_response blocks doc_type = ok report ->
        exists tables,
          tables_section blocks = ok tables
          /\ report = PyStr.join PyStr.nl
                        ([report_header doc_type] ++ kv_section blocks
                         ++ tables ++ text_section blocks)
          /\ (blocks_of_type "KEY_VALUE_SET" blocks <> [] ->
              PyStr.contains "### Key-Value Pairs (Forms)" report = true)
          /\ (blocks_of_type "TABLE" blocks <> [] ->
              PyStr.contains "### Tables" report = true)
          /\ (blocks_of_type "LINE" blocks <> [] ->
              PyStr.contains "### Text Content" report = true))
  /\ (indices_not_negative blocks ->
      exists report, _process_textract_response blocks doc_type = ok report).
Proof.
  assert (forall l : list Block, l <> [] -> nonempty l = true) as Hne
    by (intros [|? ?]; [congruence | reflexivity]).
  split; [|split; [|split; [|split; [|split; [|split]]]]].
  - unfold kv_section. cbv zeta.
    destruct (blocks_of_type "KEY_VALUE_SET" blocks); simpl; split; congruence.
  - intros H. unfold kv_section. cbv zeta. now rewrite (Hne _ H).
  - intros tables. unfold tables_section. cbv zeta.
    destruct (blocks_of_type "TABLE" blocks) as [|t ts] eqn:Ht.
    + simpl. intros [= <-]. split; [tauto | congruence].
    + cbn [nonempty]. destruct (tables_loop _ _ _ _) as [e|contents]; simpl;
        [discriminate|].
      intros [= <-]. split; [split; discriminate | eauto].
  - unfold text_section. cbv zeta.
    destruct (blocks_of_type "LINE" blocks); simpl; split; congruence.
  - intros H. unfold text_section. cbv zeta. now rewrite (Hne _ H).
  - intros report. unfold _process_textract_response.
    rewrite report_lines_sections.
    destruct (tables_section blocks) as [e|tables] eqn:Htab; cbn [ebind]; unfold ok;
      [discriminate|].
    intros Heq.
    assert (report = PyStr.join PyStr.nl
                       ([report_header doc_type] ++ kv_section blocks
                        ++ tables ++ text_section blocks)) as ->
      by (injection Heq as Heq; symmetry; exact Heq).
    clear Heq. exists tables. split; [reflexivity|]. split; [reflexivity|].
    split; [|split]; intros H; apply contains_join.
    + apply list_elem_of_further. apply elem_of_app. left.
      unfold kv_section. cbv zeta. rewrite (Hne _ H). apply list_elem_of_here.
    + apply list_elem_of_further. apply elem_of_app. right. apply elem_of_app. left.
      unfold tables_section in Htab. cbv zeta in Htab. rewrite (Hne _ H) in Htab.
      destruct (tables_loop _ _ _ _) as [e|contents]; simpl in Htab; [discriminate|].
      injection Htab as <-. apply list_elem_of_here.
    + apply list_elem_of_further. apply elem_of_app. right. apply elem_of_app. right.
      unfold text_section. cbv zeta. rewrite (Hne _ H). apply list_elem_of_here.
  - intros Hpos. unfold _process_textract_response.
    rewrite report_lines_sections.
    destruct (tables_section_ok blocks Hpos) as [tables ->]. cbn [ebind ok]. eauto.
Qed.

Lemma subsections_follow_block_types_witness :
  exists report,
    _process_textract_response nothing_to_extract "INVOICE" = ok report
    /\ PyStr.contains "### Key-Value Pairs (Forms)" report = true
    /\ PyStr.contains "### Tables" report = true
    /\ PyStr.contains "### Text Content" report = true.
Proof.
  destruct (subsections_follow_block_types nothing_to_extract "INVOICE")
    as (_ & _ & _ & _ & _ & Hrep & Htot).
  destruct Htot as [report Hok].
  - intros t c Ht Hc. vm_compute in Ht.
    apply elem_of_cons in Ht as [->|Ht]; [|inversion Ht].
    vm_compute in Hc. inversion Hc.
  - destruct (Hrep report Hok) as (tables & _ & _ & Hkv & Htb & Htx).
    exists report. split; [exact Hok|].
    split; [|split]; [apply Hkv | apply Htb | apply Htx]; vm_compute; discriminate.
Defined.

(** ** The tool *)

(** C8.  Whatever the arguments, the environment and the answers of the
    analysis, [_run] returns a string and raises nothing; an exception
    that escapes the statements under its [try] becomes the string
    "Error processing documents with Textract: " followed by the text of
    the exception, which starts with "Error". *)
Theorem run_always_returns_string {World : Type} (env : Env World)
    (invoice_file_path po_file_path aws_region s3_bucket : string) (w : World) :
  exists (s : string) (w' : World),
    _run env invoice_file_path po_file_path aws_region s3_bucket w = (inr s, w')
    /\ (forall e w1,
          run_body env invoice_file_path po_file_path aws_region s3_bucket w
            = (inl e, w1) ->
          s = "Error processing documents with Textract: " +:+ exc_str e
          /\ w' = w1
          /\ PyStr.startswith "Error" s = true)
    /\ (forall r w1,
          run_body env invoice_file_path po_file_path aws_region s3_bucket w
            = (inr r, w1) ->
          s = r /\ w' = w1).
Proof.
  unfold _run, try_except.
  destruct (run_body env invoice_file_path po_file_path aws_region s3_bucket w)
    as [[e|r] w1].
  - eexists _, _. split; [reflexivity|]. split.
    + intros e' w1' [= <- <-]. repeat split.
    + intros r w1' [=].
  - eexists _, _. split; [reflexivity|]. split.
    + intros e w1' [=].
    + intros r' w1' [= <- <-]. split; reflexivity.
Qed.

Lemma run_always_returns_string_witness :
  _run (quiet_env bad_row) "invoice.pdf" "po.pdf" "us-east-1" "bucket" tt
  = (inr "Error processing documents with Textract: list index out of range", tt).
Proof.
  destruct (run_always_returns_string (quiet_env bad_row)
              "invoice.pdf" "po.pdf" "us-east-1" "bucket" tt)
    as (s & w' & Hrun & Hexc & _).
  destruct (Hexc (IndexError "list index out of range") tt) as (-> & -> & _).
  - vm_compute. reflexivity.
  - exact Hrun.
Defined.

(** A run in which nothing fails. *)
Example run_item_qty :
  exists report,
    _run (quiet_env Sample.total_thanks) "invoice.pdf" "po.pdf" "us-east-1" "" tt
    = (inr report, tt)
    /\ PyStr.startswith "# INVOICE DOCUMENT ANALYSIS" report = true.
Proof. eexists. split; vm_compute; reflexivity. Qed.

Lemma get_text_from_block_composition_witness :
  let block :=
    mkBlock "c" "CELL" None None (Some 1%Z) (Some 1%Z) None
      (Some [mkRel "CHILD" ["w1"; "w2"; "w3"]]) in
  let block_map := make_block_map gap_words in
  PyStr.join " " (own_text block ++ word_child_texts block block_map)
  = PyStr.join " " ["a"] +:+ " " +:+ PyStr.join " " [""; "b"].
Proof.
  intros block block_map.
  apply (get_text_from_block_composition block block_map).
  - vm_compute. reflexivity.
  - discriminate.
  - discriminate.
Defined.

(** The empty part keeps its two separators. *)
Example gap_words_text :
  _get_text_from_block
    (mkBlock "c" "CELL" None None (Some 1%Z) (Some 1%Z) None
       (Some [mkRel "CHILD" ["w1"; "w2"; "w3"]]))
    (make_block_map gap_words)
  = "a  b".
Proof. vm_compute. reflexivity. Qed.

(** * Further properties of the reducer *)

(** ** The block index *)

(** X1.  The index maps an id to the last block of the collection that
    carries it, and to nothing when no block does. *)
Theorem block_map_lookup_last (blocks : list Block) (id : string) :
  make_block_map blocks !! id = last (filter (fun b => Id b = id) blocks).
Proof.
  unfold make_block_map.
  induction blocks as [|b blocks IH] using rev_ind; [reflexivity|].
  rewrite foldl_app, filter_app. cbn [foldl].
  destruct (decide (Id b = id)) as [Hb|Hb].
  - rewrite filter_cons_True, filter_nil by exact Hb.
    rewrite last_snoc, Hb. apply lookup_insert_eq.
  - rewrite filter_cons_False, filter_nil by exact Hb.
    rewrite List.app_nil_r, lookup_insert_ne by exact Hb. exact IH.
Qed.

(** ** Composed text and resolution *)

Lemma flat_map_ext_elem {A B} (f g : A -> list B) (l : list A) :
  (forall x, x ∈ l -> f x = g x) -> flat_map f l = flat_map g l.
Proof.
  induction l as [|x l IH]; intros H; simpl; [reflexivity|].
  rewrite (H x) by apply list_elem_of_here.
  rewrite IH; [reflexivity|]. intros y Hy. apply H. now apply list_elem_of_further.
Qed.

(** X2.  The composed text of a block is read off the block itself and
    off the type and the own text of the blocks that the ids of its
    CHILD relationships reach: two indexes that agree on these give the
    same text.  The relationships of a child are never followed. *)
Theorem text_reads_direct_children_only (block : Block)
    (block_map block_map' : gmap string Block) :
  (forall r id,
     r ∈ get (Relationships block) [] -> Type_ r = "CHILD" -> id ∈ Ids r ->
     face <$> block_map !! id = face <$> block_map' !! id) ->
  _get_text_from_block block block_map = _get_text_from_block block block_map'.
Proof.
  intros Hface. unfold _get_text_from_block. rewrite !text_parts_of_spec.
  do 3 f_equal. unfold word_child_texts.
  apply flat_map_ext_elem. intros r Hr.
  destruct (decide (Type_ r = "CHILD")) as [Hty|]; [|reflexivity].
  apply flat_map_ext_elem. intros id Hid.
  specialize (Hface r id Hr Hty Hid).
  destruct (block_map !! id) as [b|], (block_map' !! id) as [b'|];
    try discriminate; [|reflexivity].
  injection Hface as Hty' Htx. rewrite Hty', Htx. reflexivity.
Qed.

Lemma text_reads_direct_children_only_witness :
  _get_text_from_block
    (mkBlock "l" "LINE" None None None None None (Some [mkRel "CHILD" ["w"]]))
    (make_block_map nested_words)
  = _get_text_from_block
      (mkBlock "l" "LINE" None None None None None (Some [mkRel "CHILD" ["w"]]))
      (make_block_map flat_words).
Proof.
  apply text_reads_direct_children_only.
  intros r id Hr _ Hid. simpl in Hr.
  apply list_elem_of_singleton in Hr. subst r.
  apply list_elem_of_singleton in Hid. subst id.
  vm_compute. reflexivity.
Defined.

(** X3.  The cells of a table are exactly the blocks of type CELL that
    an id of one of its CHILD relationships reaches through the index;
    a block of another type, an id the index does not know and a
    relationship of another type contribute nothing. *)
Theorem resolved_cells_are_child_cells (block_map : gmap string Block)
    (table_block c : Block) :
  c ∈ resolve_cells block_map table_block <->
  exists rels r id,
    Relationships table_block = Some rels /\ r ∈ rels /\ Type_ r = "CHILD"
    /\ id ∈ Ids r /\ block_map !! id = Some c /\ BlockType c = "CELL".
Proof.
  rewrite resolve_cells_spec. unfold child_cells.
  rewrite list_elem_of_In, in_flat_map. split.
  - intros (r & Hr & Hc). destruct (Relationships table_block) as [rels|];
      [|inversion Hr].
    simpl in Hr. destruct (decide (Type_ r = "CHILD")) as [Hty|]; [|inversion Hc].
    apply in_flat_map in Hc as (id & Hid & Hc).
    destruct (block_map !! id) as [b|] eqn:Hb; [|inversion Hc].
    destruct (decide (BlockType b = "CELL")) as [Hcell|]; [|inversion Hc].
    destruct Hc as [<-|[]].
    exists rels, r, id. rewrite !list_elem_of_In. repeat split; assumption.
  - intros (rels & r & id & Hrels & Hr & Hty & Hid & Hb & Hcell).
    exists r. rewrite Hrels. simpl. split; [now apply list_elem_of_In|].
    destruct (decide (Type_ r = "CHILD")); [|contradiction].
    apply in_flat_map. exists id. split; [now apply list_elem_of_In|].
    rewrite Hb. destruct (decide (BlockType c = "CELL")); [now left | contradiction].
Qed.

Lemma resolved_cells_are_child_cells_witness :
  Sample.cell "c11" (Some 1%Z) (Some 1%Z) "Item"
  ∈ resolve_cells (make_block_map Sample.item_qty)
      (Sample.table "t" ["c11"; "c12"; "c21"; "c22"]).
Proof.
  apply resolved_cells_are_child_cells.
  exists [mkRel "CHILD" ["c11"; "c12"; "c21"; "c22"]],
         (mkRel "CHILD" ["c11"; "c12"; "c21"; "c22"]), "c11".
  split; [reflexivity|]. split; [apply list_elem_of_here|].
  split; [reflexivity|]. split; [apply list_elem_of_here|].
  split; [|reflexivity]. vm_compute. reflexivity.
Defined.

(** X4.  The value of a KEY block is the composed text of the block
    that its last resolving VALUE relationship resolves to, a VALUE
    relationship resolving to the first of its ids that the index maps
    to a block of role VALUE; without such a relationship the value is
    empty. *)
Theorem value_is_last_relationship_first_id (block_map : gmap string Block)
    (kv_block : Block) :
  find_value_text block_map kv_block =
  match last (value_candidates block_map kv_block) with
  | Some vb => _get_text_from_block vb block_map
  | None => ""
  end.
Proof.
  unfold find_value_text, value_candidates.
  destruct (Relationships kv_block) as [rels|]; simpl; [|reflexivity].
  apply value_rels_loop_spec.
Qed.

(** ** Tables: layout, empty places and bounds *)

Lemma markdown_loop_succ (rows : grid) :
  forall (i : nat) (acc : list string),
    markdown_loop (S i) rows acc = acc ++ map row_line rows.
Proof.
  induction rows as [|row rows IH]; intros i acc; simpl.
  - now rewrite List.app_nil_r.
  - rewrite IH, <- List.app_assoc. reflexivity.
Qed.

Lemma markdown_loop_zero (row : list (option string)) (rest : grid) :
  markdown_loop 0 (row :: rest) []
  = row_line row :: separator_line (length row) :: map row_line rest.
Proof.
  simpl. rewrite markdown_loop_succ, length_map. reflexivity.
Qed.

Lemma extract_table_content_grid (blocks : list Block) (table_block : Block)
    (cell_blocks : list Block) :
  resolve_cells (make_block_map blocks) table_block <> [] ->
  _extract_table_content blocks table_block cell_blocks =
  do g <- table_grid_of (make_block_map blocks)
            (resolve_cells (make_block_map blocks) table_block);
  ok match g with
     | [] | [] :: _ => ""
     | row :: rest =>
         PyStr.join PyStr.nl
           (row_line row :: separator_line (length row) :: map row_line rest)
     end.
Proof.
  intros Hne. unfold _extract_table_content. cbv zeta.
  destruct (resolve_cells (make_block_map blocks) table_block) as [|c cells];
    [congruence|].
  destruct (table_grid_of _ _) as [e|g]; [reflexivity|]. cbn [ebind].
  destruct g as [|[|x row] rest]; try reflexivity.
  now rewrite markdown_loop_zero.
Qed.

(** X5.  The text of a table whose grid is built is the first row of
    the grid as header line, the separator line with one [---] per
    entry of that row, and one line per further row in the order of the
    grid, joined by line feeds; [None] and the empty text both show as
    an empty field. *)
Theorem table_text_layout (blocks : list Block) (table_block : Block)
    (cell_blocks : list Block) (row : list (option string)) (rest : grid) :
  resolve_cells (make_block_map blocks) table_block <> [] ->
  row <> [] ->
  table_grid_of (make_block_map blocks)
    (resolve_cells (make_block_map blocks) table_block) = ok (row :: rest) ->
  _extract_table_content blocks table_block cell_blocks
  = ok (PyStr.join PyStr.nl
          (row_line row :: separator_line (length row) :: map row_line rest))
  /\ cell_or_empty None = "" /\ cell_or_empty (Some "") = "".
Proof.
  intros Hne Hrow Hg. split; [|split; reflexivity].
  rewrite extract_table_content_grid by exact Hne. rewrite Hg. cbn [ebind].
  destruct row; [congruence | reflexivity].
Qed.

Lemma table_text_layout_witness :
  _extract_table_content Sample.item_qty
    (Sample.table "t" ["c11"; "c12"; "c21"; "c22"]) []
  = ok (PyStr.join PyStr.nl
          [ row_line [Some "Item"; Some "Qty"; None]; separator_line 3;
            row_line [Some "Widget"; Some "3"; None];
            row_line [None; None; None] ]).
Proof.
  apply (table_text_layout Sample.item_qty
           (Sample.table "t" ["c11"; "c12"; "c21"; "c22"]) []
           [Some "Item"; Some "Qty"; None]
           [[Some "Widget"; Some "3"; None]; [None; None; None]]).
  - vm_compute. discriminate.
  - discriminate.
  - vm_compute. reflexivity.
Defined.

Lemma filter_none {A} (P : A -> Prop) `{forall x, Decision (P x)} (l : list A) :
  (forall x, x ∈ l -> ~ P x) -> filter P l = [].
Proof.
  induction l as [|y l IH]; intros HP; [reflexivity|].
  rewrite filter_cons_False by (apply HP, list_elem_of_here).
  apply IH. intros x Hx. apply HP. now apply list_elem_of_further.
Qed.

Lemma replicate_of_lookups {A} (x : A) (n : nat) (l : list A) :
  length l = n -> (forall j, (j < n)%nat -> l !! j = Some x) -> l = replicate n x.
Proof.
  intros Hlen Hall. apply list_eq. intros j.
  destruct (decide (j < n)%nat) as [Hj|Hj].
  - rewrite Hall by exact Hj. symmetry. now apply lookup_replicate_2.
  - rewrite lookup_ge_None_2 by lia. symmetry.
    apply lookup_ge_None_2. rewrite length_replicate. lia.
Qed.

(** X6.  When every cell of a table has a row and a column index of at
    least 1, the grid has one row more than the largest row index and
    one entry per row more than the largest column index; the last row
    holds no text at all and no row holds a text in its last entry. *)
Theorem one_based_table_has_empty_margin (block_map : gmap string Block)
    (table_cells : list Block) :
  table_cells <> [] ->
  (forall c, c ∈ table_cells -> (1 <= row_key c)%Z /\ (1 <= col_key c)%Z) ->
  exists (g : grid) (R C : nat),
    table_grid_of block_map table_cells = ok g
    /\ Z.of_nat R ∈ row_key <$> table_cells
    /\ Z.of_nat C ∈ col_key <$> table_cells
    /\ (forall c, c ∈ table_cells ->
          (row_key c <= Z.of_nat R)%Z /\ (col_key c <= Z.of_nat C)%Z)
    /\ length g = S R
    /\ last g = Some (replicate (S C) None)
    /\ Forall (fun row => length row = S C /\ last row = Some None) g.
Proof.
  intros Hne Hone.
  destruct (table_grid_of_spec block_map table_cells Hne)
    as (g & max_row & max_col & Hok & _ & _ & Hrin & Hcin & Hle & Hg & Hat).
  { intros c Hc. destruct (Hone c Hc). lia. }
  assert ((1 <= max_row)%Z /\ (1 <= max_col)%Z) as [Hr1 Hc1].
  { apply list_elem_of_fmap in Hrin as (cr & -> & Hcr).
    apply list_elem_of_fmap in Hcin as (cc & -> & Hcc).
    split; [apply (Hone cr Hcr) | apply (Hone cc Hcc)]. }
  exists g, (Z.to_nat max_row), (Z.to_nat max_col).
  rewrite !Z2Nat.id by lia.
  replace (Z.to_nat (max_row + 1)) with (S (Z.to_nat max_row)) in * by lia.
  replace (Z.to_nat (max_col + 1)) with (S (Z.to_nat max_col)) in * by lia.
  set (R := Z.to_nat max_row) in *. set (C := Z.to_nat max_col) in *.
  destruct Hg as [Hlen Hrows].
  assert (forall i j, (i < S R)%nat -> (j < S C)%nat -> i = R \/ j = C ->
            grid_at g i j = Some None) as Hempty.
  { intros i j Hi Hj Hij. rewrite Hat, filter_none.
    - apply new_grid_at; lia.
    - intros c Hc Hpos.
      destruct (Hone c Hc), (Hle c Hc). unfold cell_pos in Hpos.
      rewrite !norm_index_axis in Hpos by lia. injection Hpos as Hi' Hj'.
      unfold axis_pos in Hi', Hj'.
      replace (row_key c =? 0)%Z with false in Hi' by lia.
      replace (col_key c =? 0)%Z with false in Hj' by lia.
      subst R C. lia. }
  assert (forall i row, g !! i = Some row ->
            length row = S C /\ forall j, (j < S C)%nat -> i = R \/ j = C ->
              row !! j = Some None) as Hrow.
  { intros i row Hi.
    assert (length row = S C) as Hl.
    { rewrite Forall_forall in Hrows. apply Hrows.
      eapply list_elem_of_lookup_2. exact Hi. }
    split; [exact Hl|]. intros j Hj Hij.
    pose proof (lookup_lt_Some _ _ _ Hi) as Hilt.
    specialize (Hempty i j ltac:(lia) Hj Hij).
    unfold grid_at in Hempty. rewrite Hi in Hempty. exact Hempty. }
  split; [exact Hok|]. split; [exact Hrin|]. split; [exact Hcin|].
  split; [exact Hle|]. split; [exact Hlen|]. split.
  - rewrite last_lookup, Hlen. cbn [Nat.pred].
    destruct (lookup_lt_is_Some_2 g R) as [row Hi]; [lia|].
    rewrite Hi. f_equal. destruct (Hrow R row Hi) as [Hl Hall].
    apply replicate_of_lookups; [exact Hl|]. intros j Hj. apply Hall; auto.
  - apply Forall_forall. intros row Hin.
    apply list_elem_of_lookup in Hin as [i Hi].
    destruct (Hrow i row Hi) as [Hl Hall]. split; [exact Hl|].
    rewrite last_lookup, Hl. cbn [Nat.pred]. apply Hall; auto.
Qed.

Lemma one_based_table_has_empty_margin_witness :
  let block_map := make_block_map Sample.item_qty in
  let table_cells :=
    resolve_cells block_map (Sample.table "t" ["c11"; "c12"; "c21"; "c22"]) in
  exists (g : grid) (R C : nat),
    table_grid_of block_map table_cells = ok g
    /\ length g = S R
    /\ last g = Some (replicate (S C) None).
Proof.
  intros block_map table_cells.
  destruct (one_based_table_has_empty_margin block_map table_cells)
    as (g & R & C & Hok & _ & _ & _ & Hlen & Hlast & _).
  - vm_compute. discriminate.
  - intros c Hc. concrete_cells Hc.
  - exists g, R, C. auto.
Defined.

Lemma truthy_app_l (s t : string) :
  PyStr.truthy s = true -> PyStr.truthy (s +:+ t) = true.
Proof. destruct s; [discriminate | reflexivity]. Qed.

Lemma truthy_join_cons (sep x : string) (l : list string) :
  PyStr.truthy x = true -> PyStr.truthy (PyStr.join sep (x :: l)) = true.
Proof.
  intros Hx. destruct l as [|y l]; [exact Hx|].
  change (PyStr.join sep (x :: y :: l)) with (x +:+ sep +:+ PyStr.join sep (y :: l)).
  now apply truthy_app_l.
Qed.

(** X7.  A table without negative index always yields a text, and the
    text is empty exactly when none of the ids of the table resolves to
    a cell: a table with a resolved cell yields a text that is not
    empty. *)
Theorem table_text_empty_iff_no_cells (blocks : list Block) (table_block : Block)
    (cell_blocks : list Block) :
  (forall c, c ∈ resolve_cells (make_block_map blocks) table_block ->
     (0 <= row_key c)%Z /\ (0 <= col_key c)%Z) ->
  exists text,
    _extract_table_content blocks table_block cell_blocks = ok text
    /\ (text = "" <-> resolve_cells (make_block_map blocks) table_block = []).
Proof.
  intros Hpos.
  destruct (resolve_cells (make_block_map blocks) table_block) as [|c cells] eqn:Hc.
  - exists "". split; [|tauto].
    unfold _extract_table_content. cbv zeta. now rewrite Hc.
  - destruct (rendered_table_extent blocks table_block cell_blocks)
      as (g & max_row & max_col & _ & Hrin & Hcin & _ & [Hlen Hrows] & Hres & _).
    { rewrite Hc. discriminate. }
    { rewrite Hc. exact Hpos. }
    rewrite Hc in Hrin, Hcin.
    assert ((0 <= max_row)%Z /\ (0 <= max_col)%Z) as [Hr0 Hc0].
    { apply list_elem_of_fmap in Hrin as (cr & -> & Hcr).
      apply list_elem_of_fmap in Hcin as (cc & -> & Hcc).
      split; [apply (Hpos cr Hcr) | apply (Hpos cc Hcc)]. }
    exists (PyStr.join PyStr.nl (markdown_table_of g)).
    split; [exact Hres|]. split; [|discriminate].
    intros Hempty. exfalso.
    destruct g as [|row g]; [simpl in Hlen; lia|].
    assert (length row = Z.to_nat (max_col + 1)) as Hrow by (now inversion Hrows).
    destruct row as [|x row]; [simpl in Hrow; lia|].
    unfold markdown_table_of in Hempty.
    rewrite markdown_loop_zero in Hempty.
    pose proof (truthy_join_cons PyStr.nl (row_line (x :: row))
                  (separator_line (length (x :: row)) :: map row_line g) eq_refl)
      as Ht.
    rewrite Hempty in Ht. discriminate.
Qed.

Lemma table_text_empty_iff_no_cells_witness :
  exists text,
    _extract_table_content Sample.item_qty
      (Sample.table "t" ["c11"; "c12"; "c21"; "c22"]) [] = ok text
    /\ text <> "".
Proof.
  destruct (table_text_empty_iff_no_cells Sample.item_qty
              (Sample.table "t" ["c11"; "c12"; "c21"; "c22"]) [])
    as (text & Hok & Hiff).
  - intros c Hc. concrete_cells Hc.
  - exists text. split; [exact Hok|].
    intros Hempty. apply Hiff in Hempty. vm_compute in Hempty. discriminate.
Defined.

Lemma norm_index_zero (i : Z) : PyList.norm_index 0 i = None.
Proof.
  unfold PyList.norm_index. change (Z.of_nat 0) with 0%Z. change (- 0)%Z with 0%Z.
  destruct (Z.leb_spec 0 i), (Z.ltb_spec i 0); try reflexivity; lia.
Qed.

(** X8.  A table that has resolved cells, all of them with a negative
    row index, raises [IndexError]: the grid is allocated without a row
    and the first assignment is out of range. *)
Theorem negative_rows_raise_index_error (blocks : list Block) (table_block : Block)
    (cell_blocks : list Block) :
  resolve_cells (make_block_map blocks) table_block <> [] ->
  (forall c, c ∈ resolve_cells (make_block_map blocks) table_block ->
     (row_key c < 0)%Z) ->
  _extract_table_content blocks table_block cell_blocks
  = raise (IndexError "list index out of range").
Proof.
  intros Hne Hneg. rewrite extract_table_content_grid by exact Hne.
  set (cells := resolve_cells (make_block_map blocks) table_block) in *.
  unfold table_grid_of.
  set (sorted := PyList.sort PyList.lt_ZZ cell_key cells).
  assert (sorted ≡ₚ cells) as Hperm by apply sort_perm.
  assert (sorted <> []) as Hsne.
  { intros Hnil. rewrite Hnil in Hperm. apply Permutation_nil in Hperm. congruence. }
  destruct (py_max_spec (map row_key sorted)) as (max_row & -> & Hrin & _).
  { destruct sorted; [congruence | discriminate]. }
  destruct (py_max_spec (map col_key sorted)) as (max_col & -> & _ & _).
  { destruct sorted; [congruence | discriminate]. }
  cbn [ebind ok].
  change (map row_key sorted) with (row_key <$> sorted) in Hrin.
  apply list_elem_of_fmap in Hrin as (cr & -> & Hcr). rewrite Hperm in Hcr.
  pose proof (Hneg cr Hcr) as Hlt.
  unfold new_grid. replace (Z.to_nat (row_key cr + 1)) with 0%nat by lia.
  destruct sorted as [|c rest]; [congruence|].
  cbn [replicate fill_grid]. unfold place_cell, grid_set.
  cbn [length]. rewrite norm_index_zero. reflexivity.
Qed.

Lemma negative_rows_raise_index_error_witness :
  _extract_table_content below_zero (Sample.table "t" ["c"]) []
  = raise (IndexError "list index out of range").
Proof.
  apply negative_rows_raise_index_error.
  - vm_compute. discriminate.
  - intros c Hc. vm_compute in Hc.
    apply elem_of_cons in Hc as [->|Hc]; [reflexivity | inversion Hc].
Defined.

(** ** Order of the input *)

Lemma sorted_perm_unique {A} (R : A -> A -> Prop) (l1 : list A) :
  forall l2,
    StronglySorted R l1 -> StronglySorted R l2 -> l1 ≡ₚ l2 ->
    (forall x y, x ∈ l1 -> y ∈ l1 -> R x y -> R y x -> x = y) ->
    l1 = l2.
Proof.
  induction l1 as [|x l1 IH]; intros l2 H1 H2 Hperm Hanti.
  - apply Permutation_nil in Hperm. now subst.
  - destruct l2 as [|y l2].
    { symmetry in Hperm. apply Permutation_nil in Hperm. discriminate. }
    apply StronglySorted_inv in H1 as [H1 Hx].
    apply StronglySorted_inv in H2 as [H2 Hy].
    assert (x = y) as <-.
    { assert (x ∈ y :: l2) as Hxin by (rewrite <- Hperm; apply list_elem_of_here).
      assert (y ∈ x :: l1) as Hyin by (rewrite Hperm; apply list_elem_of_here).
      apply elem_of_cons in Hxin as [Heq|Hxin]; [exact Heq|].
      apply elem_of_cons in Hyin as [Heq|Hyin]; [now symmetry|].
      rewrite Forall_forall in Hx, Hy.
      apply Hanti; [apply list_elem_of_here | now apply list_elem_of_further
                   | now apply Hx | now apply Hy]. }
    f_equal. apply Permutation_cons_inv in Hperm. apply IH; try assumption.
    intros a b Ha Hb. apply Hanti; now apply list_elem_of_further.
Qed.

Lemma sort_of_perm {A K} (lt : K -> K -> bool) (key : A -> K) (l l' : list A) :
  (forall a b, lt a b = true -> lt b a = false) ->
  (forall a b c, lt b a = false -> lt c b = false -> lt c a = false) ->
  l ≡ₚ l' ->
  (forall x y, x ∈ l -> y ∈ l ->
     lt (key x) (key y) = false -> lt (key y) (key x) = false -> x = y) ->
  PyList.sort lt key l = PyList.sort lt key l'.
Proof.
  intros Hasym Htrans Hperm Hanti.
  apply (sorted_perm_unique (PyList.key_le lt key)).
  - now apply sort_sorted.
  - now apply sort_sorted.
  - now rewrite !sort_perm.
  - intros x y Hx Hy Hxy Hyx. rewrite sort_perm in Hx, Hy.
    apply Hanti; assumption.
Qed.

(** X9.  The free text does not depend on the order in which the LINE
    blocks are given, as long as no two different blocks stand at the
    same coordinates. *)
Theorem free_text_ignores_input_order
    (blocks blocks' text_blocks text_blocks' : list Block) :
  text_blocks ≡ₚ text_blocks' ->
  (forall x y, x ∈ text_blocks -> y ∈ text_blocks ->
     (box_coord Top x == box_coord Top y)%Q ->
     (box_coord Left x == box_coord Left y)%Q -> x = y) ->
  _extract_text_content blocks text_blocks
  = _extract_text_content blocks' text_blocks'.
Proof.
  intros Hperm Hdistinct. unfold _extract_text_content.
  rewrite (sort_of_perm PyList.lt_QQ reading_key text_blocks text_blocks');
    [reflexivity | apply lt_QQ_asym | apply lt_QQ_le_trans | exact Hperm |].
  intros x y Hx Hy Hxy Hyx. apply lt_QQ_false in Hxy, Hyx. simpl in Hxy, Hyx.
  apply Hdistinct; try assumption; lra.
Qed.

Lemma free_text_ignores_input_order_witness :
  _extract_text_content two_lines two_lines
  = _extract_text_content two_lines_swapped two_lines_swapped.
Proof.
  apply free_text_ignores_input_order.
  - apply Permutation_swap.
  - intros x y Hx Hy Htop _. unfold two_lines in Hx, Hy.
    repeat (apply elem_of_cons in Hx as [->|Hx]);
      repeat (apply elem_of_cons in Hy as [->|Hy]);
      try reflexivity; try (inversion Hx); try (inversion Hy);
      vm_compute in Htop; discriminate.
Defined.

(** X10.  The text of a table does not depend on the order in which its
    CHILD relationships list the cells, as long as no two different
    cells have the same (RowIndex, ColumnIndex). *)
Theorem table_text_ignores_child_order (blocks : list Block)
    (table_block table_block' : Block) (cell_blocks cell_blocks' : list Block) :
  let block_map := make_block_map blocks in
  resolve_cells block_map table_block ≡ₚ resolve_cells block_map table_block' ->
  (forall x y, x ∈ resolve_cells block_map table_block ->
     y ∈ resolve_cells block_map table_block ->
     cell_key x = cell_key y -> x = y) ->
  _extract_table_content blocks table_block cell_blocks
  = _extract_table_content blocks table_block' cell_blocks'.
Proof.
  intros block_map Hperm Hdistinct.
  destruct (resolve_cells block_map table_block) as [|c cells] eqn:Hc.
  - apply Permutation_nil in Hperm.
    unfold _extract_table_content. cbv zeta. fold block_map.
    now rewrite Hc, Hperm.
  - assert (resolve_cells block_map table_block' <> []) as Hne'.
    { intros Hnil. rewrite Hnil in Hperm. symmetry in Hperm.
      apply Permutation_nil in Hperm. discriminate. }
    rewrite !extract_table_content_grid; fold block_map;
      [|exact Hne' | rewrite Hc; discriminate].
    rewrite Hc. unfold table_grid_of.
    rewrite (sort_of_perm PyList.lt_ZZ cell_key (c :: cells)
               (resolve_cells block_map table_block')); [reflexivity | | | exact Hperm |].
    + intros a b. unfold PyList.lt_ZZ. lia.
    + intros a b d. unfold PyList.lt_ZZ. lia.
    + intros x y Hx Hy Hxy Hyx. apply Hdistinct; try assumption.
      unfold PyList.lt_ZZ in Hxy, Hyx. unfold cell_key in *. simpl in *.
      f_equal; lia.
Qed.

Lemma table_text_ignores_child_order_witness :
  _extract_table_content Sample.item_qty
    (Sample.table "t" ["c11"; "c12"; "c21"; "c22"]) []
  = _extract_table_content Sample.item_qty item_qty_shuffled [].
Proof.
  apply table_text_ignores_child_order.
  - vm_compute.
    apply perm_trans with
      [ Sample.cell "c11" (Some 1%Z) (Some 1%Z) "Item";
        Sample.cell "c22" (Some 2%Z) (Some 2%Z) "3";
        Sample.cell "c21" (Some 2%Z) (Some 1%Z) "Widget";
        Sample.cell "c12" (Some 1%Z) (Some 2%Z) "Qty" ].
    + apply perm_skip. apply perm_trans with
        [ Sample.cell "c22" (Some 2%Z) (Some 2%Z) "3";
          Sample.cell "c12" (Some 1%Z) (Some 2%Z) "Qty";
          Sample.cell "c21" (Some 2%Z) (Some 1%Z) "Widget" ].
      * apply perm_trans with
          [ Sample.cell "c12" (Some 1%Z) (Some 2%Z) "Qty";
            Sample.cell "c22" (Some 2%Z) (Some 2%Z) "3";
            Sample.cell "c21" (Some 2%Z) (Some 1%Z) "Widget" ].
        -- apply perm_skip. apply perm_swap.
        -- apply perm_swap.
      * apply perm_skip. apply perm_swap.
    + apply perm_swap.
  - intros x y Hx Hy Hkey. vm_compute in Hx, Hy.
    repeat (apply elem_of_cons in Hx as [->|Hx]);
      repeat (apply elem_of_cons in Hy as [->|Hy]);
      try reflexivity; try (inversion Hx); try (inversion Hy);
      vm_compute in Hkey; discriminate.
Defined.

(** ** The report without content *)

(** X11.  A collection without LINE, TABLE and KEY_VALUE_SET block, the
    empty collection included, gives the header line and nothing else. *)
Theorem report_of_no_content_is_header (blocks : list Block) (doc_type : string) :
  blocks_of_type "LINE" blocks = [] ->
  blocks_of_type "TABLE" blocks = [] ->
  blocks_of_type "KEY_VALUE_SET" blocks = [] ->
  _process_textract_response blocks doc_type
  = ok ("## " +:+ doc_type +:+ " Document Analysis" +:+ PyStr.nl).
Proof.
  intros Hl Ht Hk. unfold _process_textract_response.
  rewrite report_lines_sections.
  unfold tables_section, kv_section, text_section. cbv zeta.
  rewrite Hl, Ht, Hk. reflexivity.
Qed.

Lemma report_of_no_content_is_header_witness :
  _process_textract_response [Sample.word "w" "x"] "INVOICE"
  = ok ("## INVOICE Document Analysis" +:+ PyStr.nl).
Proof.
  apply (report_of_no_content_is_header [Sample.word "w" "x"] "INVOICE");
    vm_compute; reflexivity.
Defined.

(** * Further properties of the report *)

(** What a table adds to [result]: its text and a blank line, or
    nothing when the text is empty. *)
Lemma tables_loop_contents (blocks cell_blocks table_blocks : list Block) :
  forall contents,
    tables_loop blocks cell_blocks [] table_blocks = ok contents ->
    Forall (fun t => exists text,
              _extract_table_content blocks t cell_blocks = ok text) table_blocks
    /\ contents
       = flat_map (fun t =>
                     match _extract_table_content blocks t cell_blocks with
                     | inr text => if PyStr.truthy text then [text; ""] else []
                     | inl _ => []
                     end) table_blocks.
Proof.
  induction table_blocks as [|t ts IH]; intros contents Hloop.
  - injection Hloop as <-. split; [constructor | reflexivity].
  - cbn [tables_loop] in Hloop.
    destruct (_extract_table_content blocks t cell_blocks) as [e|text] eqn:Ht;
      [discriminate|].
    cbn [ebind] in Hloop. rewrite tables_loop_acc in Hloop.
    destruct (tables_loop blocks cell_blocks [] ts) as [e|rest] eqn:Hrest;
      [discriminate|].
    destruct (IH rest eq_refl) as [Hall Hrest'].
    cbn [ebind] in Hloop. injection Hloop as <-. split.
    + constructor; [eauto | exact Hall].
    + cbn [flat_map]. rewrite Ht, <- Hrest'.
      destruct (PyStr.truthy text); reflexivity.
Qed.

Lemma tables_loop_raises (blocks cell_blocks table_blocks : list Block)
    (t : Block) (e : PyExc) :
  t ∈ table_blocks ->
  _extract_table_content blocks t cell_blocks = raise e ->
  forall result, exists e',
    tables_loop blocks cell_blocks result table_blocks = raise e'.
Proof.
  intros Hin Ht result.
  destruct (tables_loop blocks cell_blocks result table_blocks) as [e'|lines] eqn:Hl;
    [eauto|]. exfalso.
  rewrite tables_loop_acc in Hl.
  destruct (tables_loop blocks cell_blocks [] table_blocks) as [e'|contents] eqn:Hc;
    [discriminate|].
  destruct (tables_loop_contents _ _ _ _ Hc) as [Hall _].
  rewrite Forall_forall in Hall. destruct (Hall t Hin) as [text Htext].
  rewrite Ht in Htext. discriminate.
Qed.

(** X12.  The report of a document shows everything that is extracted:
    a line [**name:** value] for every pair of the form fields, the text
    of every table that has one, and the free text when the collection
    has a LINE block. *)
Theorem report_shows_what_is_extracted (blocks : list Block)
    (doc_type report : string) :
  _process_textract_response blocks doc_type = ok report ->
  (forall k v,
     (k, v) ∈ _extract_key_value_pairs blocks
                (blocks_of_type "KEY_VALUE_SET" blocks) ->
     PyStr.contains ("**" +:+ k +:+ ":** " +:+ v) report = true)
  /\ (forall t text,
        t ∈ blocks_of_type "TABLE" blocks ->
        _extract_table_content blocks t (blocks_of_type "CELL" blocks) = ok text ->
        text <> "" ->
        PyStr.contains text report = true)
  /\ (blocks_of_type "LINE" blocks <> [] ->
      PyStr.contains
        (_extract_text_content blocks (blocks_of_type "LINE" blocks)) report = true).
Proof.
  intros Hrep. unfold _process_textract_response in Hrep.
  rewrite report_lines_sections in Hrep.
  destruct (tables_section blocks) as [e|tables] eqn:Htab; [discriminate|].
  cbn [ebind] in Hrep.
  assert (report = PyStr.join PyStr.nl
                     ([report_header doc_type] ++ kv_section blocks
                      ++ tables ++ text_section blocks)) as ->
    by (injection Hrep as Hrep; symmetry; exact Hrep).
  clear Hrep. split; [|split].
  - intros k v Hin. apply contains_join.
    apply list_elem_of_further, elem_of_app. left.
    unfold kv_section. cbv zeta.
    destruct (blocks_of_type "KEY_VALUE_SET" blocks) as [|b bs] eqn:Hkv.
    { unfold _extract_key_value_pairs in Hin. simpl in Hin. inversion Hin. }
    cbn [nonempty]. apply elem_of_app. right. apply elem_of_app. left.
    unfold pair_lines. apply list_elem_of_In, in_map_iff.
    exists (k, v). split; [reflexivity | now apply list_elem_of_In].
  - intros t text Hin Htext Hne. apply contains_join.
    apply list_elem_of_further, elem_of_app. right. apply elem_of_app. left.
    unfold tables_section in Htab. cbv zeta in Htab.
    destruct (blocks_of_type "TABLE" blocks) as [|b bs] eqn:Htb; [inversion Hin|].
    cbn [nonempty] in Htab.
    destruct (tables_loop blocks _ [] (b :: bs)) as [e|contents] eqn:Hloop;
      [discriminate|].
    cbn [ebind] in Htab.
    assert (tables = ["### Tables"; ""] ++ contents) as ->
      by (injection Htab as Htab; symmetry; exact Htab).
    apply elem_of_app. right.
    destruct (tables_loop_contents _ _ _ _ Hloop) as [_ ->].
    apply list_elem_of_In, in_flat_map. exists t.
    split; [now apply list_elem_of_In|]. rewrite Htext. unfold ok.
    cbv beta iota.
    apply PyStrFacts.truthy_true in Hne. rewrite Hne. now left.
  - intros Hne. apply contains_join.
    apply list_elem_of_further, elem_of_app. right. apply elem_of_app. right.
    unfold text_section. cbv zeta.
    destruct (blocks_of_type "LINE" blocks); [congruence|].
    cbn [nonempty]. do 2 apply list_elem_of_further. apply list_elem_of_here.
Qed.

Lemma report_shows_what_is_extracted_witness :
  PyStr.contains "**Total:** $500.00"
    ("## INVOICE Document Analysis" +:+ PyStr.nl +:+ PyStr.nl
     +:+ "### Key-Value Pairs (Forms)" +:+ PyStr.nl +:+ PyStr.nl
     +:+ "**Total:** $500.00" +:+ PyStr.nl +:+ PyStr.nl
     +:+ "### Text Content" +:+ PyStr.nl +:+ PyStr.nl +:+ "Thank you")
  = true.
Proof.
  destruct (report_shows_what_is_extracted Sample.total_thanks "INVOICE"
              ("## INVOICE Document Analysis" +:+ PyStr.nl +:+ PyStr.nl
               +:+ "### Key-Value Pairs (Forms)" +:+ PyStr.nl +:+ PyStr.nl
               +:+ "**Total:** $500.00" +:+ PyStr.nl +:+ PyStr.nl
               +:+ "### Text Content" +:+ PyStr.nl +:+ PyStr.nl +:+ "Thank you"))
    as (Hkv & _ & _).
  - vm_compute. reflexivity.
  - apply (Hkv "Total" "$500.00"). vm_compute. apply list_elem_of_here.
Defined.

(** X13.  When the text of one table of the collection cannot be built
    because an exception is raised, no report is returned for the
    document: [_process_textract_response] raises as well. *)
Theorem one_failing_table_fails_the_report (blocks : list Block)
    (doc_type : string) (t : Block) (e : PyExc) :
  t ∈ blocks_of_type "TABLE" blocks ->
  _extract_table_content blocks t (blocks_of_type "CELL" blocks) = raise e ->
  exists e', _process_textract_response blocks doc_type = raise e'.
Proof.
  intros Hin Ht. unfold _process_textract_response.
  rewrite report_lines_sections. unfold tables_section. cbv zeta.
  destruct (blocks_of_type "TABLE" blocks) as [|b bs] eqn:Htb; [inversion Hin|].
  cbn [nonempty].
  destruct (tables_loop_raises blocks (blocks_of_type "CELL" blocks) (b :: bs) t e
              Hin Ht []) as [e' ->].
  exists e'. reflexivity.
Qed.

Lemma one_failing_table_fails_the_report_witness :
  exists e', _process_textract_response below_zero "INVOICE" = raise e'.
Proof.
  apply (one_failing_table_fails_the_report below_zero "INVOICE"
           (Sample.table "t" ["c"]) (IndexError "list index out of range")).
  - vm_compute. apply list_elem_of_here.
  - vm_compute. reflexivity.
Defined.

(** * Further properties of the tool *)

(** One step of the case analysis of a run: the answer of a call of the
    environment, or the outcome of a reduction. *)
Ltac run_step :=
  match goal with
  | |- context [match ?x with _ => _ end] =>
      lazymatch x with
      | context [match _ with _ => _ end] => fail
      | _ => destruct x eqn:?
      end
  | |- context [if ?x then _ else _] =>
      lazymatch x with
      | context [match _ with _ => _ end] => fail
      | context [if _ then _ else _] => fail
      | _ => destruct x eqn:?
      end
  end.

Ltac run_cases :=
  unfold _run, run_body, try_except, hex8, bind, ret, throw, lift;
  repeat (run_step; cbv beta iota).

(** X14.  Whatever the environment does, the string [_run] returns is
    either an error message that starts with "Error" or the combined
    report of the two documents: the report of the blocks that the
    analysis answered for the invoice object, then the report of the
    blocks that the analysis, called next, answered for the purchase
    order object of the same bucket. *)
Theorem run_returns_error_or_report {World : Type} (env : Env World)
    (invoice_file_path po_file_path aws_region s3_bucket : string) (w : World) :
  exists (s : string) (w' : World),
    _run env invoice_file_path po_file_path aws_region s3_bucket w = (inr s, w')
    /\ (PyStr.startswith "Error" s = true
        \/ exists (bucket h1 h2 : string) (w1 w2 w3 : World)
                  (invoice_response po_response : option (list Block))
                  (invoice_analysis po_analysis : string),
             textract_analyze_document env bucket ("invoice_" +:+ h1 +:+ ".pdf") w1
             = (inr invoice_response, w2)
             /\ textract_analyze_document env bucket ("po_" +:+ h2 +:+ ".pdf") w2
                = (inr po_response, w3)
             /\ _process_textract_response (get invoice_response []) "INVOICE"
                = inr invoice_analysis
             /\ _process_textract_response (get po_response []) "PURCHASE ORDER"
                = inr po_analysis
             /\ s = final_report invoice_analysis po_analysis).
Proof.
  run_cases.
  all: eexists _, _; (split; [reflexivity|]).
  all: try (left; reflexivity).
  all: right; eexists _, _, _, _, _, _, _, _, _, _;
    (split; [eassumption|]); (split; [eassumption|]);
    (split; [eassumption|]); (split; [eassumption|]); reflexivity.
Qed.

(** ** The calls of a run *)

(** X15.  When the invoice file does not exist, [_run] returns the
    message that names its path after the one call that looked for it;
    when it exists and the purchase order file does not, after the two
    path checks.  No other call is made: no client, no upload, no
    analysis. *)
Theorem missing_file_stops_the_run (o : Outside)
    (invoice_file_path po_file_path aws_region s3_bucket : string) :
  (answer_path_exists o [] invoice_file_path = ok false ->
   _run (recording_env o) invoice_file_path po_file_path aws_region s3_bucket []
   = (inr ("Error: Invoice file not found at path: " +:+ invoice_file_path),
      [CallPathExists invoice_file_path]))
  /\ (answer_path_exists o [] invoice_file_path = ok true ->
      answer_path_exists o [CallPathExists invoice_file_path] po_file_path
        = ok false ->
      _run (recording_env o) invoice_file_path po_file_path aws_region s3_bucket []
      = (inr ("Error: PO file not found at path: " +:+ po_file_path),
         [CallPathExists invoice_file_path; CallPathExists po_file_path])).
Proof.
  split.
  - intros H. unfold _run, run_body, try_except, bind, ret. simpl.
    unfold recorded. rewrite H. reflexivity.
  - intros H1 H2. unfold _run, run_body, try_except, bind, ret. simpl.
    unfold recorded. rewrite H1. simpl. rewrite H2. reflexivity.
Qed.

Lemma missing_file_stops_the_run_witness :
  _run (recording_env no_invoice) "invoice.pdf" "po.pdf" "us-east-1" "" []
  = (inr "Error: Invoice file not found at path: invoice.pdf",
     [CallPathExists "invoice.pdf"]).
Proof.
  apply (missing_file_stops_the_run no_invoice "invoice.pdf" "po.pdf" "us-east-1" "").
  reflexivity.
Defined.

(** The case analysis of a run in a recording environment. *)
Ltac recorded_cases :=
  unfold _run, run_body, try_except, hex8, bind, ret, throw, lift;
  cbn [recording_env os_path_exists boto3_client uuid4_hex s3_create_bucket
       s3_upload_file textract_analyze_document s3_delete_object
       s3_delete_bucket with_cleanup answer_path_exists answer_client
       answer_uuid4 answer_create_bucket answer_upload_file
       answer_analyze_document answer_delete_object answer_delete_bucket];
  unfold recorded;
  repeat (run_step; cbv beta iota; cbn [app fst snd]).

Ltac named_bucket :=
  let H := fresh in
  cbn [bucket_of]; intros ? H;
  first [discriminate H | injection H as H; subst; reflexivity].

Ltac bucket_call :=
  match goal with
  | |- _ /\ _ => split; [reflexivity | named_bucket]
  | |- forall b, _ -> _ => named_bucket
  end.

Ltac random_bucket :=
  let H := fresh in
  cbn [bucket_of]; intros ? H;
  first [ discriminate H
        | injection H as H; subst; eexists; split; reflexivity ].

(** X16.  Every storage and analysis call of a run names one and the
    same bucket.  With a bucket name given it is that name and no bucket
    is created; without one it is "textract-temp-" followed by the first
    eight characters of the id that the generator of random ids
    answered when it was called first, after the two clients were
    made. *)
Theorem a_run_uses_one_bucket (o : Outside)
    (invoice_file_path po_file_path aws_region s3_bucket : string) :
  let history :=
    snd (_run (recording_env o) invoice_file_path po_file_path aws_region
           s3_bucket []) in
  (PyStr.truthy s3_bucket = true ->
   Forall (fun c => is_create_bucket c = false
                    /\ forall b, bucket_of c = Some b -> b = s3_bucket) history)
  /\ (PyStr.truthy s3_bucket = false ->
      Forall (fun c => forall b, bucket_of c = Some b ->
                exists u,
                  answer_uuid4 o [ CallPathExists invoice_file_path;
                                   CallPathExists po_file_path;
                                   CallClient "textract" aws_region;
                                   CallClient "s3" aws_region ] = ok u
                  /\ b = "textract-temp-" +:+ String.substring 0 8 u) history).
Proof.
  intros history. subst history. split; intros Ht.
  - recorded_cases; try congruence;
      repeat (apply List.Forall_cons; [bucket_call|]); apply List.Forall_nil.
  - recorded_cases; try congruence;
      repeat (apply List.Forall_cons; [random_bucket|]); apply List.Forall_nil.
Qed.

Lemma a_run_uses_one_bucket_witness :
  Forall (fun c => is_create_bucket c = false
                   /\ forall b, bucket_of c = Some b -> b = "mine")
    (snd (_run (recording_env (calm (ok None)))
            "invoice.pdf" "po.pdf" "us-east-1" "mine" []))
  /\ Forall (fun c => forall b, bucket_of c = Some b ->
               b = "textract-temp-01234567")
       (snd (_run (recording_env (calm (ok None)))
               "invoice.pdf" "po.pdf" "us-east-1" "" [])).
Proof.
  split.
  - apply (a_run_uses_one_bucket (calm (ok None))
             "invoice.pdf" "po.pdf" "us-east-1" "mine").
    reflexivity.
  - eapply Forall_impl.
    + apply (a_run_uses_one_bucket (calm (ok None))
               "invoice.pdf" "po.pdf" "us-east-1" "").
      reflexivity.
    + cbv beta. intros c Hc b Hb. destruct (Hc b Hb) as (u & Hu & ->).
      injection Hu as <-. reflexivity.
Defined.

(** X17.  A bucket is deleted only if its name starts with
    "textract-temp-"; and a bucket of such a name that the caller gave
    is deleted at the end of a run that returns the report, when the
    two objects could be deleted. *)
Theorem only_temp_named_buckets_are_deleted (o : Outside)
    (invoice_file_path po_file_path aws_region s3_bucket : string) :
  let run :=
    _run (recording_env o) invoice_file_path po_file_path aws_region s3_bucket [] in
  Forall (fun c => forall b, c = CallDeleteBucket b ->
                     PyStr.startswith "textract-temp-" b = true) (snd run)
  /\ (PyStr.truthy s3_bucket = true ->
      PyStr.startswith "textract-temp-" s3_bucket = true ->
      (forall h b k, answer_delete_object o h b k = ok tt) ->
      forall invoice_analysis po_analysis,
        fst run = inr (final_report invoice_analysis po_analysis) ->
        last (snd run) = Some (CallDeleteBucket s3_bucket)).
Proof.
  intros run. subst run. split.
  - recorded_cases;
      repeat (apply List.Forall_cons;
              [intros ? [=]; subst; assumption || reflexivity|]);
      apply List.Forall_nil.
  - intros Ht Hpre Hdel ia pa.
    recorded_cases; try congruence;
      try (intros [= Hs]; vm_compute in Hs; discriminate Hs);
      try (intros _; reflexivity);
      try (match goal with
           | H : answer_delete_object _ _ _ _ = inl _ |- _ =>
               rewrite Hdel in H; discriminate H
           end).
Qed.

Lemma only_temp_named_buckets_are_deleted_witness :
  last (snd (_run (recording_env (calm (ok None)))
               "invoice.pdf" "po.pdf" "us-east-1" "textract-temp-archive" []))
  = Some (CallDeleteBucket "textract-temp-archive").
Proof.
  apply (only_temp_named_buckets_are_deleted (calm (ok None))
           "invoice.pdf" "po.pdf" "us-east-1" "textract-temp-archive")
    with (invoice_analysis := "## INVOICE Document Analysis" +:+ PyStr.nl)
         (po_analysis := "## PURCHASE ORDER Document Analysis" +:+ PyStr.nl).
  - reflexivity.
  - reflexivity.
  - reflexivity.
  - vm_compute. reflexivity.
Defined.

(** X18.  A run that returns an error message other than the one of the
    outermost handler has made no cleanup call: after a refused upload
    or analysis the uploaded objects, and a bucket created for the run,
    are left in place. *)
Theorem failed_run_cleans_nothing (o : Outside)
    (invoice_file_path po_file_path aws_region s3_bucket s : string) :
  let run :=
    _run (recording_env o) invoice_file_path po_file_path aws_region s3_bucket [] in
  fst run = inr s ->
  PyStr.startswith "Error" s = true ->
  PyStr.startswith "Error processing" s = false ->
  forallb (fun c => negb (is_delete c)) (snd run) = true.
Proof.
  intros run. subst run.
  recorded_cases;
    first [ intros _ _ _; reflexivity
          | intros [= <-] H1 H2; vm_compute in H1; discriminate H1
          | intros [= <-] H1 H2; vm_compute in H2; discriminate H2 ].
Qed.

Lemma failed_run_cleans_nothing_witness :
  forallb (fun c => negb (is_delete c))
    (snd (_run (recording_env refused_analysis)
            "invoice.pdf" "po.pdf" "us-east-1" "" []))
  = true.
Proof.
  apply (failed_run_cleans_nothing refused_analysis
           "invoice.pdf" "po.pdf" "us-east-1" ""
           "Error analyzing documents with Textract: access denied").
  - vm_compute. reflexivity.
  - reflexivity.
  - reflexivity.
Defined.

Lemma cleanup_as_if_succeeded (o : Outside)
    (on_object :
       list Call -> string -> string -> option (option string * string))
    (on_bucket : list Call -> string -> option (option string * string))
    (invoice_file_path po_file_path aws_region s3_bucket : string) :
  fst (_run (recording_env (with_cleanup on_object on_bucket o))
         invoice_file_path po_file_path aws_region s3_bucket [])
  = fst (_run (recording_env (with_cleanup object_deleted bucket_deleted o))
           invoice_file_path po_file_path aws_region s3_bucket []).
Proof.
  unfold _run, run_body, try_except, hex8, bind, ret, throw, lift;
  cbn [recording_env os_path_exists boto3_client uuid4_hex s3_create_bucket
       s3_upload_file textract_analyze_document s3_delete_object
       s3_delete_bucket with_cleanup answer_path_exists answer_client
       answer_uuid4 answer_create_bucket answer_upload_file
       answer_analyze_document answer_delete_object answer_delete_bucket];
  unfold recorded, object_deleted, bucket_deleted, cleanup_answer, ok, raise;
  repeat (run_step; cbv beta iota; cbn [app fst snd]); reflexivity.
Qed.

(** X19.  The string a run returns does not depend on how the cleanup
    calls are answered, as long as they succeed or raise a
    [ClientError]: such an error never reaches the caller. *)
Theorem cleanup_errors_do_not_surface (o : Outside)
    (on_object on_object' :
       list Call -> string -> string -> option (option string * string))
    (on_bucket on_bucket' : list Call -> string -> option (option string * string))
    (invoice_file_path po_file_path aws_region s3_bucket : string) :
  fst (_run (recording_env (with_cleanup on_object on_bucket o))
         invoice_file_path po_file_path aws_region s3_bucket [])
  = fst (_run (recording_env (with_cleanup on_object' on_bucket' o))
           invoice_file_path po_file_path aws_region s3_bucket []).
Proof.
  rewrite (cleanup_as_if_succeeded o on_object on_bucket).
  rewrite (cleanup_as_if_succeeded o on_object' on_bucket').
  reflexivity.
Qed.

(** A refused cleanup leaves the report as it is. *)
Example refused_cleanup_report :
  fst (_run (recording_env (with_cleanup object_refused bucket_refused
                              (calm (ok None))))
         "invoice.pdf" "po.pdf" "us-east-1" "" [])
  = inr (final_report ("## INVOICE Document Analysis" +:+ PyStr.nl)
                      ("## PURCHASE ORDER Document Analysis" +:+ PyStr.nl)).
Proof. vm_compute. reflexivity. Qed.

(** X20.  The calls of a run of the Textract tool are an initial part
    of one fixed sequence: the two path checks, the two clients, the
    creation of a bucket when none was given, the two uploads, the two
    analyses, the deletion of the two objects, the deletion of the
    bucket; the invoice always before the purchase order, and analysis
    and deletion for the very bucket and keys of the uploads. *)
Theorem textract_calls_in_order (o : Outside)
    (invoice_file_path po_file_path aws_region s3_bucket : string) :
  exists b k1 k2 n,
    snd (_run (recording_env o) invoice_file_path po_file_path aws_region
           s3_bucket [])
    = take n (full_run invoice_file_path po_file_path aws_region s3_bucket
                b k1 k2).
Proof.
  unfold full_run.
  recorded_cases; eexists _, _, _;
    match goal with
    | |- exists n, ?h = _ => exists (length h); reflexivity
    end.
  Unshelve. all: exact "".
Qed.

(** * [MarkItDownTool] *)

Ltac md_cases :=
  unfold MarkItDownTool._run, MarkItDownTool.run_body, bind, ret;
  cbn [MarkItDownTool.recording_env MarkItDownTool.os_path_exists
       MarkItDownTool.new_MarkItDown MarkItDownTool.md_convert];
  repeat (run_step; cbv beta iota; cbn [app fst snd]).

Lemma content_or_warning_truthy (text_content : option string) (warning : string) :
  PyStr.truthy warning = true ->
  PyStr.truthy (MarkItDownTool.content_or_warning text_content warning) = true.
Proof.
  intros Hw. unfold MarkItDownTool.content_or_warning.
  destruct text_content as [t|]; [|exact Hw].
  destruct (PyStr.truthy t) eqn:Ht; assumption.
Qed.

(** X21.  The converter tool returns a string and raises nothing,
    whatever the file system and the converter do; the string is an
    error message that starts with "Error", or the two documents under
    their headers: what the converter answered for the invoice path
    and, called next, for the purchase order path, where a document
    without text shows a warning that names its path, so that no
    document is shown empty. *)
Theorem markitdown_returns_error_or_documents {World : Type}
    (env : MarkItDownTool.Env World) (invoice_file_path po_file_path : string)
    (w : World) :
  exists (s : string) (w' : World),
    MarkItDownTool._run env invoice_file_path po_file_path w = (inr s, w')
    /\ (PyStr.startswith "Error" s = true
        \/ exists (invoice_text po_text : option string) (w1 w2 w3 : World),
             let invoice_content :=
               MarkItDownTool.content_or_warning invoice_text
                 ("Warning: No text content extracted from invoice file "
                  +:+ invoice_file_path) in
             let po_content :=
               MarkItDownTool.content_or_warning po_text
                 ("Warning: No text content extracted from PO file "
                  +:+ po_file_path) in
             MarkItDownTool.md_convert env invoice_file_path w1
             = (inr invoice_text, w2)
             /\ MarkItDownTool.md_convert env po_file_path w2 = (inr po_text, w3)
             /\ s = MarkItDownTool.both_documents invoice_content po_content
             /\ PyStr.truthy invoice_content = true
             /\ PyStr.truthy po_content = true).
Proof.
  md_cases.
  all: eexists _, _; (split; [reflexivity|]).
  all: try (left; reflexivity).
  right. eexists _, _, _, _, _. cbv zeta.
  split; [eassumption|]. split; [eassumption|]. split; [reflexivity|].
  split; apply content_or_warning_truthy; reflexivity.
Qed.

(** X22.  The calls of the converter tool are, in this order, the check
    of the invoice path, the check of the purchase order path, the
    construction of the converter, the conversion of the invoice and the
    conversion of the purchase order; a run makes an initial part of
    this sequence and nothing else. *)
Theorem markitdown_calls_in_order (o : MarkItDownTool.Outside)
    (invoice_file_path po_file_path : string) :
  exists n,
    snd (MarkItDownTool._run (MarkItDownTool.recording_env o)
           invoice_file_path po_file_path [])
    = take n [ MarkItDownTool.CallPathExists invoice_file_path;
               MarkItDownTool.CallPathExists po_file_path;
               MarkItDownTool.CallMarkItDown;
               MarkItDownTool.CallConvert invoice_file_path;
               MarkItDownTool.CallConvert po_file_path ].
Proof.
  md_cases;
    first [ now exists 1%nat | now exists 2%nat | now exists 3%nat
          | now exists 4%nat | now exists 5%nat ].
Qed.

(** Files without text give the two warnings. *)
Example blank_files_report :
  fst (MarkItDownTool._run (MarkItDownTool.recording_env MarkItDownTool.blank_files)
         "invoice.pdf" "po.pdf" [])
  = inr (MarkItDownTool.both_documents
           "Warning: No text content extracted from invoice file invoice.pdf"
           "Warning: No text content extracted from PO file po.pdf").
Proof. vm_compute. reflexivity. Qed.

(** * [main.py] *)

Ltac main_cases :=
  unfold Main.main, Main.run, Main.train, Main.replay, Main.test,
         Main.reraise_as, bind, ret, lift;
  cbn [Main.recording_env Main.new_crew_base Main.crew Main.kickoff
       Main.crew_train Main.crew_replay Main.crew_test Main.print];
  repeat (run_step; cbv beta iota; cbn [app fst snd]).

(** X23.  Started with no command, the script prints the usage line and
    ends with exit status 1; started with a command other than "run",
    "train", "replay" and "test", it prints "Unknown command: " and the
    command and ends with exit status 1.  In both cases the print is
    its only call: no crew is built. *)
Theorem main_refuses_other_commands (o : Main.Outside) (int : string -> exc Z)
    (argv : list string) :
  let result := Main.main (Main.recording_env o) int argv [] in
  ((length argv < 2)%nat ->
   snd result = [Main.CallPrint "Usage: main.py <command> [<args>]"]
   /\ (Main.answer_print o [] "Usage: main.py <command> [<args>]" = ok tt ->
       fst result = inr (Main.SysExit 1)))
  /\ (forall command,
        argv !! 1%nat = Some command ->
        command <> "run" -> command <> "train" ->
        command <> "replay" -> command <> "test" ->
        snd result = [Main.CallPrint ("Unknown command: " +:+ command)]
        /\ (Main.answer_print o [] ("Unknown command: " +:+ command) = ok tt ->
            fst result = inr (Main.SysExit 1))).
Proof.
  intros result. subst result. split.
  - intros Hlen. unfold Main.main.
    replace (length argv <? 2)%nat with true by (symmetry; apply Nat.ltb_lt; lia).
    unfold bind, ret. cbn [Main.recording_env Main.print]. split.
    + now destruct (Main.answer_print o [] _).
    + intros ->. reflexivity.
  - intros command Hcmd Hrun Htrain Hreplay Htest. unfold Main.main.
    pose proof (lookup_lt_Some _ _ _ Hcmd) as Hlen.
    replace (length argv <? 2)%nat with false by (symmetry; apply Nat.ltb_ge; lia).
    unfold bind, ret, lift, Main.item. rewrite Hcmd. unfold ok. cbv beta iota.
    repeat (case_decide; [contradiction|]).
    cbn [Main.recording_env Main.print]. split.
    + now destruct (Main.answer_print o [] _).
    + intros ->. reflexivity.
Qed.

Lemma main_refuses_other_commands_witness :
  Main.main (Main.recording_env Main.willing) Main.numeral_int
    ["main.py"; "deploy"] []
  = (inr (Main.SysExit 1), [Main.CallPrint "Unknown command: deploy"]).
Proof.
  destruct (main_refuses_other_commands Main.willing Main.numeral_int
              ["main.py"; "deploy"]) as [_ H].
  destruct (H "deploy" eq_refl ltac:(discriminate) ltac:(discriminate)
              ltac:(discriminate) ltac:(discriminate)) as [Hsnd Hfst].
  rewrite (surjective_pairing (Main.main _ _ _ _)).
  rewrite Hsnd, (Hfst eq_refl). reflexivity.
Defined.

(** X24.  Through the script, the commands "train" and "test" hand the
    command word itself to [int]; as [int] refuses both words, the
    training and the test of the crew are never called and the script
    ends with the exception of the command, whose text starts with
    "An error occurred while training the crew: " or "An error occurred
    while testing the crew: ". *)
Theorem main_train_and_test_always_fail (o : Main.Outside)
    (int : string -> exc Z) (argv : list string) :
  (argv !! 1%nat = Some "train" ->
   (forall n, int "train" <> ok n) ->
   exists msg h,
     Main.main (Main.recording_env o) int argv []
     = (inl (OtherException
               ("An error occurred while training the crew: " +:+ msg)), h)
     /\ Forall (fun c => forall n f i, c <> Main.CallTrain n f i) h)
  /\ (argv !! 1%nat = Some "test" ->
      (forall n, int "test" <> ok n) ->
      exists msg h,
        Main.main (Main.recording_env o) int argv []
        = (inl (OtherException
                  ("An error occurred while testing the crew: " +:+ msg)), h)
        /\ Forall (fun c => forall n m i, c <> Main.CallTest n m i) h).
Proof.
  split; intros Hcmd Hint; pose proof (lookup_lt_Some _ _ _ Hcmd) as Hlen;
    unfold Main.main;
    (replace (length argv <? 2)%nat with false
       by (symmetry; apply Nat.ltb_ge; lia));
    unfold bind at 1; unfold lift at 1; unfold Main.item at 1;
    rewrite Hcmd; unfold ok; cbv beta iota;
    repeat (case_decide; [discriminate|]);
    (case_decide; [|contradiction]).
  - unfold Main.train, Main.reraise_as, bind, ret, lift, Main.item.
    cbn [Main.recording_env Main.new_crew_base Main.crew Main.crew_train].
    rewrite Hcmd. unfold ok. cbv beta iota.
    destruct (int "train") as [e|n] eqn:Hn; [|exfalso; now apply (Hint n)].
    cbn [app]. repeat (run_step; cbv beta iota);
      eexists _, _; (split; [reflexivity|]);
      repeat (apply List.Forall_cons; [discriminate|]); apply List.Forall_nil.
  - unfold Main.test, Main.reraise_as, bind, ret, lift, Main.item.
    cbn [Main.recording_env Main.new_crew_base Main.crew Main.crew_test].
    rewrite Hcmd. unfold ok. cbv beta iota.
    destruct (int "test") as [e|n] eqn:Hn; [|exfalso; now apply (Hint n)].
    cbn [app]. repeat (run_step; cbv beta iota);
      eexists _, _; (split; [reflexivity|]);
      repeat (apply List.Forall_cons; [discriminate|]); apply List.Forall_nil.
Qed.

Lemma main_train_and_test_always_fail_witness :
  exists msg h,
    Main.main (Main.recording_env Main.willing) Main.numeral_int
      ["main.py"; "train"; "5"; "trained.pkl"] []
    = (inl (OtherException
              ("An error occurred while training the crew: " +:+ msg)), h)
    /\ Forall (fun c => forall n f i, c <> Main.CallTrain n f i) h.
Proof.
  apply (main_train_and_test_always_fail Main.willing Main.numeral_int
           ["main.py"; "train"; "5"; "trained.pkl"]).
  - reflexivity.
  - intros n. vm_compute. discriminate.
Defined.

Lemma main_dispatches_replay {World : Type} (env : Main.Env World)
    (int : string -> exc Z) (argv : list string) (w : World) :
  argv !! 1%nat = Some "replay" ->
  Main.main env int argv w
  = bind (Main.replay env argv) (fun _ => ret Main.Completed) w.
Proof.
  intros Hcmd. pose proof (lookup_lt_Some _ _ _ Hcmd) as Hlen.
  unfold Main.main.
  replace (length argv <? 2)%nat with false by (symmetry; apply Nat.ltb_ge; lia).
  unfold bind at 1; unfold lift at 1; unfold Main.item at 1.
  rewrite Hcmd. unfold ok. cbv beta iota.
  repeat (case_decide; [discriminate|]).
  case_decide; [reflexivity|contradiction].
Qed.

(** X25.  Through the script, the command "replay" replays the task
    whose id is the word "replay", whatever follows on the command
    line.  The calls are the construction of the crew and the replay of
    "replay", or an initial part of these; when the construction of the
    crew raises nothing the replay of "replay" is called, and the
    script completes when that call returns and raises the exception of
    the command when it raises. *)
Theorem main_replay_uses_the_command_word (o : Main.Outside)
    (int : string -> exc Z) (argv : list string) :
  argv !! 1%nat = Some "replay" ->
  let result := Main.main (Main.recording_env o) int argv [] in
  let calls := [Main.CallCrewBase; Main.CallCrew; Main.CallReplay "replay"] in
  (exists n, snd result = take (S n) calls)
  /\ (Main.answer_crew_base o [] = ok tt ->
      Main.answer_crew o [Main.CallCrewBase] = ok tt ->
      snd result = calls
      /\ fst result
         = match Main.answer_replay o [Main.CallCrewBase; Main.CallCrew] "replay" with
           | inr _ => inr Main.Completed
           | inl e =>
               inl (OtherException
                      ("An error occurred while replaying the crew: "
                       +:+ exc_str e))
           end).
Proof.
  intros Hcmd result calls. subst result calls.
  rewrite (main_dispatches_replay _ _ _ _ Hcmd).
  unfold Main.replay, Main.reraise_as, bind, ret, lift, Main.item.
  cbn [Main.recording_env Main.new_crew_base Main.crew Main.crew_replay].
  rewrite Hcmd. unfold ok. cbv beta iota. cbn [app].
  split.
  - repeat (run_step; cbv beta iota; cbn [app fst snd]);
      first [ now exists 0%nat | now exists 1%nat | now exists 2%nat ].
  - intros -> ->. cbv beta iota. cbn [app].
    destruct (Main.answer_replay o [Main.CallCrewBase; Main.CallCrew] "replay");
      split; reflexivity.
Qed.

Lemma main_replay_uses_the_command_word_witness :
  Main.main (Main.recording_env Main.willing) Main.numeral_int
    ["main.py"; "replay"; "task-17"] []
  = (inr Main.Completed,
     [Main.CallCrewBase; Main.CallCrew; Main.CallReplay "replay"]).
Proof.
  destruct (main_replay_uses_the_command_word Main.willing Main.numeral_int
              ["main.py"; "replay"; "task-17"] eq_refl) as [_ H].
  destruct (H eq_refl eq_refl) as [Hsnd Hfst].
  apply injective_projections; [exact Hfst | exact Hsnd].
Defined.

(** X26.  The calls of the command "train" are, in this order, the two
    calls that build the crew and then the training, with the integer
    that [int] reads from the second entry of the command line, the
    third entry as file name and the sample inputs; there is no
    training call when an entry is missing or is no integer.  A run
    makes an initial part of this sequence, and all of it when building
    the crew raises nothing.  Every exception of the command is raised
    again as an exception whose text starts with "An error occurred
    while training the crew: ". *)
Theorem train_calls_with_parsed_arguments (o : Main.Outside)
    (int : string -> exc Z) (argv : list string) :
  let result := Main.train (Main.recording_env o) int argv [] in
  let calls :=
    [Main.CallCrewBase; Main.CallCrew]
    ++ option_list (Main.train_call int argv) in
  (exists n, snd result = take (S n) calls)
  /\ (Main.answer_crew_base o [] = ok tt ->
      Main.answer_crew o [Main.CallCrewBase] = ok tt ->
      snd result = calls)
  /\ (fst result = inr tt
      \/ exists msg,
           fst result
           = inl (OtherException
                    ("An error occurred while training the crew: " +:+ msg))).
Proof.
  intros result calls. subst result calls.
  unfold Main.train_call, Main.train, Main.reraise_as, bind, ret, lift,
         Main.item, ok, raise.
  cbn [Main.recording_env Main.new_crew_base Main.crew Main.crew_train app].
  split; [|split].
  - repeat (run_step; cbv beta iota; cbn [app fst snd option_list]);
      first [ now exists 0%nat | now exists 1%nat | now exists 2%nat ].
  - intros -> ->. cbv beta iota. cbn [app].
    repeat (run_step; cbv beta iota; cbn [app fst snd option_list]);
      reflexivity.
  - repeat (run_step; cbv beta iota; cbn [app fst snd]);
      first [ left; reflexivity | right; eexists; reflexivity
            | left; repeat match goal with u : unit |- _ => destruct u end;
              reflexivity ].
Qed.

Lemma train_calls_with_parsed_arguments_witness :
  snd (Main.train (Main.recording_env Main.willing) Main.numeral_int
         ["train.py"; "5"; "trained.pkl"] [])
  = [Main.CallCrewBase; Main.CallCrew;
     Main.CallTrain 5 "trained.pkl" Main.sample_inputs].
Proof.
  destruct (train_calls_with_parsed_arguments Main.willing Main.numeral_int
              ["train.py"; "5"; "trained.pkl"]) as (_ & H & _).
  exact (H eq_refl eq_refl).
Defined.
